(** * Verification of the view-layer logic of the documentation site

    Shallow embedding of the three pieces of logic the site's components
    carry:

    - the version selector ([src/components/VersionSelector/index.tsx] and
      its "preview" revision with a disabled option): version detection
      from the path, the path rewriting done by [handleVersionChange] and
      the keyboard handler [handleKeyDown];
    - the tag filter of [src/theme/DocCardList/index.tsx]
      ([filteredItems]);
    - the star counter ([formatStars], [fetchStars]).

    JavaScript strings are modelled by [string]; every pattern the code
    searches for is ASCII, so searching bytes and searching UTF-16 code
    units coincide. *)

From Stdlib Require Import ZArith Ascii String DecimalString Lia.
From Stdlib Require Import SpecFloat.
From Stdlib Require DecimalPos DecimalZ DecimalFacts.
From stdpp Require Import base option list strings gmap.

Local Open Scope stdpp_scope.

(** ** JavaScript strings *)

Module JsString.

(** [s.startsWith(n)], returning what follows [n]. *)
Fixpoint strip_prefix (n s : string) : option string :=
  match n with
  | EmptyString => Some s
  | String a n' =>
      match s with
      | EmptyString => None
      | String b s' => if Ascii.eqb a b then strip_prefix n' s' else None
      end
  end.

(** A matcher tried at the head of a string: the remainder after the
    match, or [None]. *)
Definition matcher := string -> option string.

(** The scan shared by [String.prototype.includes] and by a non-global
    [String.prototype.replace]: positions are tried from left to right
    (the end of the string included) and the first one where the matcher
    succeeds wins.  The result is the text before the match and the
    text after it. *)
Fixpoint search (m : matcher) (p : string) : option (string * string) :=
  match m p with
  | Some rest => Some (EmptyString, rest)
  | None =>
      match p with
      | EmptyString => None
      | String c p' =>
          match search m p' with
          | Some (u, rest) => Some (String c u, rest)
          | None => None
          end
      end
  end.

(** [p.includes(n)] *)
Definition includes (p n : string) : bool :=
  match search (strip_prefix n) p with Some _ => true | None => false end.

(** [p.replace(re, repl)] for a regular expression without the [g] flag
    and a replacement free of [$] patterns: only the first match is
    replaced; without a match the string is returned as it is. *)
Definition replace (m : matcher) (repl p : string) : string :=
  match search m p with
  | Some (u, rest) => u +:+ repl +:+ rest
  | None => p
  end.

Definition is_digit (c : ascii) : bool :=
  match c with
  | "0" | "1" | "2" | "3" | "4" | "5" | "6" | "7" | "8" | "9" => true
  | _ => false
  end%char.

End JsString.

(** ** The regular expressions of the version selector

    The fragment of JavaScript regular expressions the component uses:
    literals, [\d+], an optional group and sequencing.  Matching is by
    backtracking with a continuation, greedy quantifiers first, as
    ECMAScript specifies it. *)

Module Regex.
Import JsString.

Inductive regex :=
| Lit (s : string)
| Digits1
| Opt (r : regex)
| Seq (r1 r2 : regex).

(** [\d*] followed by the continuation: the longest run first, then
    shorter ones. *)
Fixpoint digits_then (s : string) (k : matcher) : option string :=
  match s with
  | String c s' =>
      if is_digit c then
        match digits_then s' k with
        | Some r => Some r
        | None => k s
        end
      else k s
  | EmptyString => k s
  end.

Fixpoint rmatch (r : regex) (s : string) (k : matcher) : option string :=
  match r with
  | Lit l =>
      match strip_prefix l s with
      | Some s' => k s'
      | None => None
      end
  | Digits1 =>
      match s with
      | String c s' => if is_digit c then digits_then s' k else None
      | EmptyString => None
      end
  | Opt r' =>
      match rmatch r' s k with
      | Some x => Some x
      | None => k s
      end
  | Seq r1 r2 => rmatch r1 s (fun s' => rmatch r2 s' k)
  end.

(** One attempt of the regular expression at the head of [s]. *)
Definition exec (r : regex) : matcher := fun s => rmatch r s Some.

(** [/<root>-v\d+/] *)
Definition versioned (root : string) : regex :=
  Seq (Lit (root +:+ "-v")) Digits1.

(** [/<root>(-v\d+)?/] *)
Definition maybe_versioned (root : string) : regex :=
  Seq (Lit root) (Opt (Seq (Lit "-v") Digits1)).

End Regex.

(** ** The version selector: shared view-layer state

    The component holds [currentVersion] and [isOpen] in React state and
    reads [location.pathname] from the router.  A handler is a function of
    that state which returns the state it leaves and the requests it sent
    to the outside, in program order. *)

Module Component.
Import JsString.

Inductive effect :=
| Navigate (href : string)      (* window.location.href = href *)
| FocusTrigger                  (* triggerRef.current?.focus() *)
| PreventDefault.               (* event.preventDefault() *)

Record state := State {
  pathname : string;            (* location.pathname *)
  currentVersion : string;
  isOpen : bool
}.

Definition action := state -> state * list effect.

Definition skip : action := fun st => (st, []).

Definition andThen (a b : action) : action :=
  fun st => let '(st1, e1) := a st in
            let '(st2, e2) := b st1 in
            (st2, e1 ++ e2).

Definition emit (e : effect) : action := fun st => (st, [e]).

Definition setIsOpen (b : bool) : action :=
  fun st => (State (pathname st) (currentVersion st) b, []).

Definition setCurrentVersion (v : string) : action :=
  fun st => (State (pathname st) v (isOpen st), []).

(** The target of the last assignment to [window.location.href], if the
    handler made one. *)
Definition navigation (out : state * list effect) : option string :=
  last (omap (fun e => match e with Navigate h => Some h | _ => None end)
             out.2).

(** The effect on [location.pathname]: ["v1"] when the path carries one
    of the two [-v1] roots, ["v0"] otherwise. *)
Definition detectVersion (path : string) : string :=
  if includes path "/examples-v1" || includes path "/docs-v1"
  then "v1" else "v0".

Definition onPathChange : action :=
  fun st => setCurrentVersion (detectVersion (pathname st)) st.

(** The state once the effects of a page load at [path] have run. *)
Definition loaded (path : string) (open : bool) : state :=
  State path (detectVersion path) open.

(** [event.key] of the keys the keyboard handler looks at. *)
Definition Escape := "Escape".
Definition ArrowDown := "ArrowDown".
Definition ArrowUp := "ArrowUp".

(** [enabledValues.indexOf(v)]: the first position holding [v], [-1]
    without one. *)
Fixpoint indexOf (l : list string) (v : string) : Z :=
  match l with
  | [] => -1
  | x :: l' =>
      if String.eqb x v then 0
      else let i := indexOf l' v in if (i <? 0)%Z then -1 else (i + 1)%Z
  end.

(** [a % n] on integers: the remainder takes the sign of [a]; [None] is
    the [NaN] of a zero divisor. *)
Definition js_rem (a n : Z) : option Z :=
  if (n =? 0)%Z then None else Some (Z.rem a n).

(** [l[i]]: [undefined] (here [None]) outside the array and at [NaN];
    a remainder [-0] reads index [0]. *)
Definition at_index (l : list string) (i : option Z) : option string :=
  match i with
  | Some i => if (i <? 0)%Z then None else l !! Z.to_nat i
  | None => None
  end.

(** [newValue === s] for a [newValue] that may be [undefined]. *)
Definition strict_eq (newValue : option string) (s : string) : bool :=
  match newValue with
  | Some v => String.eqb v s
  | None => false
  end.

End Component.

Declare Scope action_scope.
Delimit Scope action_scope with action.
Notation "a ;; b" := (Component.andThen a b)
  (at level 100, b at level 200, right associativity) : action_scope.
Local Open Scope action_scope.

(** ** [src/components/VersionSelector/index.tsx] *)

Module VersionSelector.
Import JsString Regex Component.

(** The value [handleVersionChange] leaves in [newPath] (lines 96-123),
    which the arrow-key branch of [handleKeyDown] recomputes inline
    (lines 64-77). *)
Definition newPath (pathname value : string) : string :=
  if String.eqb value "v0" then
    if includes pathname "/examples" then
      replace (exec (versioned "/examples")) "/examples" pathname
    else if includes pathname "/docs" then
      replace (exec (versioned "/docs")) "/docs" pathname
    else pathname
  else if String.eqb value "v1" then
    if includes pathname "/examples" then
      replace (exec (maybe_versioned "/examples")) "/examples-v1" pathname
    else if includes pathname "/docs" then
      replace (exec (maybe_versioned "/docs")) "/docs-v1" pathname
    else pathname
  else pathname.

Definition handleVersionChange (value : string) : action :=
  fun st =>
    if String.eqb value (currentVersion st) then setIsOpen false st
    else (setIsOpen false ;;
          emit (Navigate (newPath (pathname st) value))) st.

Definition options : list string := ["v0"; "v1"].

Definition nextIndex (key : string) (currentIndex n : Z) : option Z :=
  if String.eqb key ArrowDown
  then js_rem (currentIndex + 1) n
  else js_rem (currentIndex - 1 + n) n.

Definition handleKeyDown (key : string) : action :=
  fun st =>
    if String.eqb key Escape then
      (setIsOpen false ;; emit FocusTrigger) st
    else if String.eqb key ArrowDown || String.eqb key ArrowUp then
      let currentIndex := indexOf options (currentVersion st) in
      let newValue :=
        at_index options
          (nextIndex key currentIndex (Z.of_nat (length options))) in
      (emit PreventDefault ;;
       fun st =>
         if strict_eq newValue (currentVersion st) then setIsOpen false st
         else
           let newPath :=
             match newValue with
             | Some v => newPath (pathname st) v
             | None => pathname st
             end in
           (setIsOpen false ;; emit (Navigate newPath)) st) st
    else skip st.

(** The [keydown] listener is attached to the document only while the
    menu is open. *)
Definition onKeyDown (key : string) : action :=
  fun st => if isOpen st then handleKeyDown key st else skip st.

(** [onClick] of the option showing [value]. *)
Definition onClick (value : string) : action := handleVersionChange value.

End VersionSelector.

(** ** The revision of the selector with a disabled preview option

    The second [VersionSelector/index.tsx] of the repository: [options]
    carry a [disabled] flag, a switch to ["v0"] goes to the base path of
    the root (no sub-path is kept) and nothing is computed for any other
    version. *)

Module Preview.
Import JsString Component.

Record VersionOption := Option_ {
  value : string;
  label : string;
  disabled : bool
}.

Definition newPath (pathname value : string) : string :=
  if String.eqb value "v0" then
    if includes pathname "/examples" then "/examples"
    else if includes pathname "/docs" then "/docs"
    else ""
  else "".

Section Options.
(** The handlers only go through [options] with [find], [filter] and
    [map]; they are stated for any option list and used at the
    list of the source below. *)
Variable options : list VersionOption.

(** [options.find(opt => opt.value === value)] *)
Definition findOption (value : string) : option VersionOption :=
  List.find (fun opt => let 'Option_ v _ _ := opt in String.eqb v value)
            options.

Definition handleVersionChange (value : string) : action :=
  fun st =>
    match findOption value with
    | Some (Option_ _ _ true) => skip st
    | _ =>
        if String.eqb value (currentVersion st) then setIsOpen false st
        else (setIsOpen false ;;
              emit (Navigate (newPath (pathname st) value))) st
    end.

Definition enabledOptions : list VersionOption :=
  List.filter (fun opt => negb opt.(disabled)) options.

Definition enabledValues : list string :=
  List.map value enabledOptions.

Definition nextIndex (key : string) (currentIndex n : Z) : option Z :=
  if String.eqb key ArrowDown
  then js_rem (currentIndex + 1) n
  else js_rem (currentIndex - 1 + n) n.

Definition newValue (key : string) (st : state) : option string :=
  let currentIndex := indexOf enabledValues (currentVersion st) in
  at_index enabledValues
    (nextIndex key currentIndex (Z.of_nat (length enabledValues))).

Definition handleKeyDown (key : string) : action :=
  fun st =>
    if String.eqb key Escape then
      (setIsOpen false ;; emit FocusTrigger) st
    else if String.eqb key ArrowDown || String.eqb key ArrowUp then
      let newValue := newValue key st in
      (emit PreventDefault ;;
       fun st =>
         if strict_eq newValue (currentVersion st) then setIsOpen false st
         else
           let newPath :=
             if strict_eq newValue "v0"
             then newPath (pathname st) "v0" else "" in
           (setIsOpen false ;; emit (Navigate newPath)) st) st
    else skip st.

Definition onKeyDown (key : string) : action :=
  fun st => if isOpen st then handleKeyDown key st else skip st.

(** [onClick={() => !option.disabled && handleVersionChange(option.value)}] *)
Definition onClick (opt : VersionOption) : action :=
  fun st =>
    if negb opt.(disabled) then handleVersionChange opt.(value) st
    else skip st.

End Options.

Definition options : list VersionOption :=
  [ Option_ "v0" "v0" false; Option_ "v1" "v1-preview" true ].

End Preview.

(** ** The first revision of the selector, a native [<select>]

    Same rewriting as [VersionSelector.newPath]; there is no menu to close. *)

Module NativeSelect.
Import Component.

Definition handleVersionChange (value : string) : action :=
  fun st =>
    if String.eqb value (currentVersion st) then skip st
    else emit (Navigate (VersionSelector.newPath (pathname st) value)) st.

End NativeSelect.

(** ** Numbers

    A JavaScript number is a binary64 floating-point number: a NaN, an
    infinity, a zero with its sign, or [m * 2^e] with a sign, in the
    representation of the standard library ([spec_float], with 53 bits
    of mantissa and exponents from -1074 to 971).  The operations round
    the exact result to the nearest number, the even one of two
    ([round64]), as the language defines them. *)

Module JsNumber.
Local Open Scope Z_scope.

Definition number := spec_float.

(** [a/b] divided by [2^e], as a fraction. *)
Definition scaled (a b e : Z) : Z * Z :=
  if 0 <=? e then (a, b * 2 ^ e) else (a * 2 ^ (- e), b).

(** The [l] with [2^l <= a/b < 2^(l+1)], for positive [a] and [b]. *)
Definition floor_log2 (a b : Z) : Z :=
  let l := Z.log2 a - Z.log2 b in
  let '(A, B) := scaled a b l in
  if B <=? A then l else l - 1.

(** The integer nearest to [A/B], the even one of two. *)
Definition nearest_even (A B : Z) : Z :=
  let q := A / B in
  match 2 * (A mod B) ?= B with
  | Lt => q
  | Gt => q + 1
  | Eq => if Z.even q then q else q + 1
  end.

(** The number nearest to the fraction [a/b] ([0 <= a], [0 < b]) with
    the sign [s]: the mantissa has 53 bits, fewer at the least exponent
    -1074; what rounds up to [2^1024] is infinite. *)
Definition round64 (s : bool) (a b : Z) : number :=
  if a =? 0 then S754_zero s
  else
    let e := Z.max (floor_log2 a b - 52) (-1074) in
    let '(A, B) := scaled a b e in
    let m := nearest_even A B in
    let '(m, e) := if m =? 2 ^ 53 then (2 ^ 52, e + 1) else (m, e) in
    if m =? 0 then S754_zero s
    else if 971 <? e then S754_infinity s
    else S754_finite s (Z.to_pos m) e.

(** The number an integer literal denotes. *)
Definition of_Z (z : Z) : number :=
  if z <? 0 then round64 true (- z) 1 else round64 false z 1.

Definition isNaN (x : number) : bool :=
  match x with S754_nan => true | _ => false end.

(** [x / y] *)
Definition div (x y : number) : number :=
  match x, y with
  | S754_nan, _ | _, S754_nan => S754_nan
  | S754_infinity _, S754_infinity _ => S754_nan
  | S754_zero _, S754_zero _ => S754_nan
  | S754_infinity sx, S754_zero sy
  | S754_infinity sx, S754_finite sy _ _
  | S754_finite sx _ _, S754_zero sy => S754_infinity (xorb sx sy)
  | S754_zero sx, S754_infinity sy
  | S754_zero sx, S754_finite sy _ _
  | S754_finite sx _ _, S754_infinity sy => S754_zero (xorb sx sy)
  | S754_finite sx mx ex, S754_finite sy my ey =>
      let '(a, b) := scaled (Z.pos mx) (Z.pos my) (ey - ex) in
      round64 (xorb sx sy) a b
  end.

Definition signed (s : bool) (m : positive) : Z :=
  if s then Z.neg m else Z.pos m.

(** [m1 * 2^e1] compared with [m2 * 2^e2]. *)
Definition compare_values (m1 e1 m2 e2 : Z) : comparison :=
  if e1 <=? e2 then m1 ?= m2 * 2 ^ (e2 - e1)
  else m1 * 2 ^ (e1 - e2) ?= m2.

(** [x < y] *)
Definition lt (x y : number) : bool :=
  match x, y with
  | S754_nan, _ | _, S754_nan => false
  | S754_infinity sx, S754_infinity sy => sx && negb sy
  | S754_infinity sx, _ => sx
  | _, S754_infinity sy => negb sy
  | S754_zero _, S754_zero _ => false
  | S754_zero _, S754_finite sy _ _ => negb sy
  | S754_finite sx _ _, S754_zero _ => sx
  | S754_finite sx mx ex, S754_finite sy my ey =>
      match compare_values (signed sx mx) ex (signed sy my) ey with
      | Lt => true
      | _ => false
      end
  end.

(** [Math.round(x)]: the integer nearest to [x], the greater one of
    two; a zero keeps the sign of [x]. *)
Definition Math_round (x : number) : number :=
  match x with
  | S754_finite s m e =>
      if 0 <=? e then x
      else
        let n := (2 * signed s m + 2 ^ (- e)) / 2 ^ (1 - e) in
        if n =? 0 then S754_zero s else of_Z n
  | _ => x
  end.

Definition decimal (z : Z) : string := NilZero.string_of_int (Z.to_int z).

Fixpoint zeros (n : nat) : string :=
  match n with O => "" | S n' => String "0" (zeros n') end.

Fixpoint count_digits (fuel : nat) (z : Z) : Z :=
  match fuel with
  | O => 1
  | S fuel' => if z <? 10 then 1 else 1 + count_digits fuel' (z / 10)
  end.

(** The number of decimal digits of a positive integer. *)
Definition ndigits (z : Z) : Z := count_digits (Z.to_nat (Z.log2 z)) z.

(** [m * 2^e / 10^j] as a fraction. *)
Definition over_pow10 (m e j : Z) : Z * Z :=
  (m * 2 ^ Z.max e 0 * 10 ^ Z.max (- j) 0,
   2 ^ Z.max (- e) 0 * 10 ^ Z.max j 0).

(** The [n] with [10^(n-1) <= m * 2^e < 10^n]. *)
Definition magnitude (m e : Z) : Z :=
  let '(a, b) := over_pow10 m e 0 in
  if b <=? a then ndigits (a / b)
  else 1 - ndigits ((b + a - 1) / a - 1).

Definition same (x y : number) : bool :=
  match x, y with
  | S754_finite sx mx ex, S754_finite sy my ey =>
      Bool.eqb sx sy && (mx =? my)%positive && (ex =? ey)
  | S754_zero sx, S754_zero sy => Bool.eqb sx sy
  | S754_infinity sx, S754_infinity sy => Bool.eqb sx sy
  | S754_nan, S754_nan => true
  | _, _ => false
  end.

(** [s * 10^j] is read as the positive number [m * 2^e]. *)
Definition reads_as (m e s j : Z) : bool :=
  same (round64 false (s * 10 ^ Z.max j 0) (10 ^ Z.max (- j) 0))
       (S754_finite false (Z.to_pos m) e).

(** The digits [s] of [m * 2^e] when [k] digits are enough, with the
    position of the point: of the two [k]-digit decimals around the
    number the one that is read as the number, the nearer one when both
    are. *)
Definition digits_at (m e n k : Z) : option (Z * Z) :=
  let j := n - k in
  let '(A, B) := over_pow10 m e j in
  let lo := A / B in
  let hi := lo + 1 in
  let low := (lo, n) in
  let high := if hi =? 10 ^ k then (10 ^ (k - 1), n + 1) else (hi, n) in
  match reads_as m e lo j, reads_as m e hi j with
  | true, true =>
      Some match 2 * A ?= (2 * lo + 1) * B with
           | Lt => low
           | Gt => high
           | Eq => if Z.even lo then low else high
           end
  | true, false => Some low
  | false, true => Some high
  | false, false => None
  end.

Fixpoint search_digits (fuel : nat) (m e n k : Z) : Z * Z :=
  match fuel with
  | O => (fst (over_pow10 m e (n - k)) / snd (over_pow10 m e (n - k)), n)
  | S fuel' =>
      match digits_at m e n k with
      | Some r => r
      | None => search_digits fuel' m e n (k + 1)
      end
  end.

(** The shortest decimal digits [s] that are read as [m * 2^e], and the
    position [n] of the point: the number is written [0.s * 10^n].
    Seventeen digits are always enough. *)
Definition shortest (m e : Z) : Z * Z :=
  search_digits 17 m e (magnitude m e) 1.

Definition substring_from (n : Z) (s : string) : string :=
  String.substring (Z.to_nat n) (String.length s - Z.to_nat n) s.

Definition substring_to (n : Z) (s : string) : string :=
  String.substring 0 (Z.to_nat n) s.

Definition sign_text (s : bool) : string := if s then "-" else "".

(** The text of a number ([Number::toString], radix 10), as a template
    literal and string concatenation produce it. *)
Definition Number_toString (x : number) : string :=
  match x with
  | S754_nan => "NaN"
  | S754_zero _ => "0"
  | S754_infinity s => sign_text s +:+ "Infinity"
  | S754_finite s m e =>
      let '(d, n) := shortest (Z.pos m) e in
      let k := ndigits d in
      let ds := decimal d in
      sign_text s +:+
      (if (k <=? n) && (n <=? 21) then ds +:+ zeros (Z.to_nat (n - k))
       else if (0 <? n) && (n <=? 21) then
         substring_to n ds +:+ "." +:+ substring_from n ds
       else if (-6 <? n) && (n <=? 0) then
         "0." +:+ zeros (Z.to_nat (- n)) +:+ ds
       else
         let ex := n - 1 in
         let es := (if 0 <=? ex then "+" else "-") +:+ decimal (Z.abs ex) in
         if k =? 1 then ds +:+ "e" +:+ es
         else substring_to 1 ds +:+ "." +:+ substring_from 1 ds
              +:+ "e" +:+ es)
  end.

(** The digits of [n] with a point before the last [f] of them. *)
Definition fixed_text (n f : Z) : string :=
  let ds := decimal n in
  if f =? 0 then ds
  else
    let k := Z.of_nat (String.length ds) in
    let ds := if k <=? f then zeros (Z.to_nat (f + 1 - k)) +:+ ds else ds in
    let k := Z.max k (f + 1) in
    substring_to (k - f) ds +:+ "." +:+ substring_from (k - f) ds.

(** [x.toFixed(f)]: the exact value of [x] rounded to [f] decimals,
    halves away from zero; from [10^21] on, the text of the number. *)
Definition toFixed (f : Z) (x : number) : string :=
  match x with
  | S754_nan => "NaN"
  | S754_infinity _ => Number_toString x
  | S754_zero _ => fixed_text 0 f
  | S754_finite s m e =>
      let '(a, b) := over_pow10 (Z.pos m) e 0 in
      if 10 ^ 21 * b <=? a then Number_toString x
      else
        let n := (2 * a * 10 ^ f + b) / (2 * b) in
        sign_text s +:+ fixed_text n f
  end.

(** Digits in groups of three. *)
Fixpoint group3 (fuel : nat) (n : Z) : string :=
  match fuel with
  | O => decimal n
  | S fuel' =>
      if n <? 1000 then decimal n
      else
        let low := n mod 1000 in
        group3 fuel' (n / 1000) +:+ "," +:+
        (if low <? 10 then "00" else if low <? 100 then "0" else "")
        +:+ decimal low
  end.

Fixpoint strip_zeros (fuel : nat) (n : Z) : Z :=
  match fuel with
  | O => n
  | S fuel' => if n mod 10 =? 0 then strip_zeros fuel' (n / 10) else n
  end.

(** The fraction digits of [t] thousandths, without trailing zeros. *)
Definition fraction_text (t : Z) : string :=
  if t =? 0 then ""
  else "." +:+ (if t <? 10 then "00" else if t <? 100 then "0" else "")
       +:+ decimal (strip_zeros 2 t).

(** The sign U+221E, in UTF-8. *)
Definition infinity_sign : string :=
  String (ascii_of_nat 226) (String (ascii_of_nat 136)
    (String (ascii_of_nat 158) "")).

(** [x.toLocaleString()] where the default locale of the runtime is
    [en-US]: the shortest digits of the number rounded to three
    decimals, halves away from zero, the integer part in groups of
    three, the sign kept on a zero. *)
Definition en_US (x : number) : string :=
  match x with
  | S754_nan => "NaN"
  | S754_infinity s => sign_text s +:+ infinity_sign
  | S754_zero s => sign_text s +:+ "0"
  | S754_finite s m e =>
      let '(d, n) := shortest (Z.pos m) e in
      let k := ndigits d in
      let t :=
        if k - n <=? 3 then d * 10 ^ (n - k + 3)
        else (2 * d + 10 ^ (k - n - 3)) / (2 * 10 ^ (k - n - 3)) in
      sign_text s +:+ group3 (Z.to_nat (Z.log2 t)) (t / 1000)
      +:+ fraction_text (t mod 1000)
  end.

End JsNumber.

(** ** [src/theme/DocCardList/index.tsx]: the tag filter *)

Module DocCardList.

(** The values a sidebar item can carry under [customProps], typed
    [Record<string, unknown>] by the framework.  The sidebar reaches the
    page as JSON, so that a value is a primitive, an array or an object
    with its properties, and [undefined] where a property is missing. *)
#[warnings="-register-all"]
Inductive jsval :=
| VUndefined
| VNull
| VBool (b : bool)
| VNum (x : JsNumber.number)
| VStr (s : string)
| VArr (l : list jsval)
| VObj (fields : gmap string jsval).

(** A sidebar item as the filter sees it.  The list is typed as holding
    items, so the [?.] on [item] itself never meets [null]. *)
Record item := Item {
  href : string;
  label : string;
  customProps : option (gmap string jsval)
}.

Definition TAGS : list string :=
  [ "vector-index"; "knowledge-graph"; "multi-modal";
    "structured-data-extraction"; "custom-building-blocks";
    "data-mapping" ].

(** [item?.customProps?.tags] *)
Definition tags (it : item) : jsval :=
  match customProps it with
  | Some props => default VUndefined (props !! "tags")
  | None => VUndefined
  end.

Definition isArray (v : jsval) : bool :=
  match v with VArr _ => true | _ => false end.

(** [l.includes(t)] for a string [t]: an element is the same value as a
    string only if it is a string with the same code units. *)
Definition arrayIncludes (l : list jsval) (t : string) : bool :=
  existsb (fun v => match v with VStr s => String.eqb s t | _ => false end) l.

(** The elements of an array; [&&] keeps [includes] from being called on
    anything else. *)
Definition elements (v : jsval) : list jsval :=
  match v with VArr l => l | _ => [] end.

(** The arrow function handed to [items.filter]. *)
Definition keeps (selectedTag : string) (it : item) : bool :=
  isArray (tags it) && arrayIncludes (elements (tags it)) selectedTag.

(** Truthiness of the [string | null] state [selectedTag]. *)
Definition truthy (selectedTag : option string) : bool :=
  match selectedTag with
  | Some t => negb (String.eqb t "")
  | None => false
  end.

Definition filteredItems (items : list item) (selectedTag : option string)
  : list item :=
  match selectedTag with
  | Some t => if truthy selectedTag then List.filter (keeps t) items else items
  | None => items
  end.

(** [setSelectedTag(value === '' ? null : value)] *)
Definition handleValueChange (value : string) : option string :=
  if String.eqb value "" then None else Some value.

Definition radioValue (selectedTag : option string) : string :=
  match selectedTag with None => "" | Some t => t end.

(** *** The same computation on array references

    [items] is an array that belongs to the caller.  Arrays live in a
    store indexed by references; [Array.prototype.filter] reads its
    receiver and allocates the array it returns; the conditional
    expression returns [items] itself when no tag is selected. *)

Definition ref := positive.

Definition filteredItemsRef (store : gmap ref (list item)) (items : ref)
    (selectedTag : option string) : option (gmap ref (list item) * ref) :=
  match store !! items with
  | None => None
  | Some elems =>
      match selectedTag with
      | Some t =>
          if truthy selectedTag then
            let r := fresh (dom store) in
            Some (<[r := List.filter (keeps t) elems]> store, r)
          else Some (store, items)
      | None => Some (store, items)
      end
  end.

End DocCardList.

(** ** Conversion of values

    What the operators of the language do to a value that is not of the
    type they work on.  The values are those a JSON text gives: no
    function, no accessor, and the prototypes of plain objects and
    arrays. *)

Module Conversion.
Import JsString JsNumber DocCardList.
Local Open Scope Z_scope.

Definition code (c : ascii) : Z := Z.of_nat (nat_of_ascii c).

(** White space and line terminators that take three bytes in UTF-8:
    U+1680, U+2000 to U+200A, U+2028, U+2029, U+202F, U+205F, U+3000
    and U+FEFF. *)
Definition wide_space (b1 b2 b3 : Z) : bool :=
  (b1 =? 225) && (b2 =? 154) && (b3 =? 128)
  || (b1 =? 226) && (b2 =? 128)
     && ((128 <=? b3) && (b3 <=? 138) || (b3 =? 168) || (b3 =? 169)
         || (b3 =? 175))
  || (b1 =? 226) && (b2 =? 129) && (b3 =? 159)
  || (b1 =? 227) && (b2 =? 128) && (b3 =? 128)
  || (b1 =? 239) && (b2 =? 187) && (b3 =? 191).

(** A text without its leading white space (TAB, LF, VT, FF, CR, SP,
    U+00A0 and the wide ones). *)
Fixpoint skip_space (s : string) : string :=
  match s with
  | String c r =>
      let b := code c in
      if (9 <=? b) && (b <=? 13) || (b =? 32) then skip_space r
      else
        match r with
        | String c2 r2 =>
            if (b =? 194) && (code c2 =? 160) then skip_space r2
            else
              match r2 with
              | String c3 r3 =>
                  if wide_space b (code c2) (code c3) then skip_space r3
                  else s
              | EmptyString => s
              end
        | EmptyString => s
        end
  | EmptyString => s
  end.

Definition blank (s : string) : bool := String.eqb (skip_space s) "".

Definition digit_value (base : Z) (c : ascii) : option Z :=
  let b := code c in
  let v := if (48 <=? b) && (b <=? 57) then b - 48
           else if (97 <=? b) && (b <=? 102) then b - 87
           else if (65 <=? b) && (b <=? 70) then b - 55
           else base in
  if v <? base then Some v else None.

(** The digits a text begins with: their value after [acc], their
    number after [count], and the rest of the text. *)
Fixpoint digits (base : Z) (s : string) (acc count : Z) : Z * Z * string :=
  match s with
  | String c r =>
      match digit_value base c with
      | Some d => digits base r (acc * base + d) (count + 1)
      | None => (acc, count, s)
      end
  | EmptyString => (acc, count, s)
  end.

(** An optional exponent part: its value and the rest of the text. *)
Definition exponent (s : string) : option (Z * string) :=
  match s with
  | String c r =>
      if Ascii.eqb c "e" || Ascii.eqb c "E" then
        let '(sg, r') :=
          match r with
          | String "+" r' => (1, r')
          | String "-" r' => (-1, r')
          | _ => (1, r)
          end in
        let '(v, n, rest) := digits 10 r' 0 0 in
        if 0 <? n then Some (sg * v, rest) else None
      else Some (0, s)
  | EmptyString => Some (0, s)
  end.

(** An unsigned decimal literal up to the end of the text, with the
    sign read before it: [Infinity], or digits with an optional point
    and an optional exponent, at least one digit before the exponent. *)
Definition unsigned_decimal (sign : bool) (s : string) : number :=
  match strip_prefix "Infinity" s with
  | Some rest => if blank rest then S754_infinity sign else S754_nan
  | None =>
      let '(i, ni, r1) := digits 10 s 0 0 in
      let '(d, nf, r2) :=
        match r1 with
        | String "." r => digits 10 r i 0
        | _ => (i, 0, r1)
        end in
      if ni + nf =? 0 then S754_nan
      else
        match exponent r2 with
        | Some (e, rest) =>
            if blank rest then
              round64 sign (d * 10 ^ Z.max (e - nf) 0) (10 ^ Z.max (nf - e) 0)
            else S754_nan
        | None => S754_nan
        end
  end.

Definition radix_literal (base : Z) (s : string) : number :=
  let '(v, n, rest) := digits base s 0 0 in
  if (0 <? n) && blank rest then round64 false v 1 else S754_nan.

(** The number a text stands for, [NaN] when it is no numeric literal
    between white space; the empty text stands for 0. *)
Definition StringToNumber (s : string) : number :=
  match skip_space s with
  | EmptyString => S754_zero false
  | String "+" r => unsigned_decimal false r
  | String "-" r => unsigned_decimal true r
  | String "0" (String c r) as t =>
      if Ascii.eqb c "x" || Ascii.eqb c "X" then radix_literal 16 r
      else if Ascii.eqb c "o" || Ascii.eqb c "O" then radix_literal 8 r
      else if Ascii.eqb c "b" || Ascii.eqb c "B" then radix_literal 2 r
      else unsigned_decimal false t
  | t => unsigned_decimal false t
  end.

(** [ToString]; [None] stands for the [TypeError] of an object that
    cannot be converted.  An array is joined with commas, [null] and
    [undefined] elements as empty texts; an object reads
    ["[object Object]"], unless a property [toString] of its own hides
    the inherited method: the property holds no function, [valueOf]
    gives no primitive, and the conversion throws. *)
Fixpoint ToString (v : jsval) : option string :=
  match v with
  | VUndefined => Some "undefined"
  | VNull => Some "null"
  | VBool b => Some (if b then "true" else "false")
  | VNum x => Some (Number_toString x)
  | VStr s => Some s
  | VArr l =>
      (fix join (l : list jsval) : option string :=
         match l with
         | [] => Some ""
         | x :: rest =>
             let element :=
               match x with
               | VUndefined | VNull => Some ""
               | _ => ToString x
               end in
             match element, rest with
             | None, _ => None
             | Some e, [] => Some e
             | Some e, _ =>
                 match join rest with
                 | Some r => Some (e +:+ "," +:+ r)
                 | None => None
                 end
             end
         end) l
  | VObj fields =>
      match fields !! "toString" with
      | Some _ => None
      | None => Some "[object Object]"
      end
  end.

(** [ToNumber]; an array or an object is first made a text. *)
Definition ToNumber (v : jsval) : option number :=
  match v with
  | VUndefined => Some S754_nan
  | VNull => Some (S754_zero false)
  | VBool b => Some (if b then of_Z 1 else S754_zero false)
  | VNum x => Some x
  | VStr s => Some (StringToNumber s)
  | VArr _ | VObj _ => option_map StringToNumber (ToString v)
  end.

(** [v > 0] *)
Definition greater_than_zero (v : jsval) : option bool :=
  option_map (lt (S754_zero false)) (ToNumber v).

End Conversion.

(** ** The star counter ([GitHubStar]) *)

Module GitHubStar.
Import JsNumber.

(** What the [stars] state holds, at the type it declares: [null]
    initially, then what reading [data.stargazers_count] gave, a number,
    [null], or [undefined] when the answer has no such field. *)
Inductive stars_value :=
| Null
| Undefined
| Num (n : number).

(** [toLocaleString] is called without a locale: the text follows the
    default locale of the runtime, here a parameter. *)
Definition formatStars (toLocaleString : number -> string)
    (count : stars_value) : string :=
  match count with
  | Null => "0"                       (* count === null *)
  | Undefined => "0"                  (* isNaN(undefined) *)
  | Num count =>
      if isNaN count then "0"
      else if lt count (of_Z 1000) then toLocaleString count
      else if lt count (of_Z 10000) then
        let rounded := div (Math_round (div count (of_Z 100))) (of_Z 10) in
        toFixed 1 rounded +:+ "k"
      else Number_toString (Math_round (div count (of_Z 1000))) +:+ "k"
  end.

Record state := State { stars : stars_value; loading : bool }.

Definition initial : state := State Null true.

(** The body [response.json()] resolves with: [null], of which no
    property can be read, or another value, with what reading its
    [stargazers_count] gives. *)
Inductive body :=
| JsonNull
| Json (stargazers_count : stars_value).

(** What awaiting [fetch] and then [response.json()] can do. *)
Inductive outcome :=
| FetchRejects (error : string)
| JsonRejects (error : string)
| Data (data : body).

Inductive completion :=
| Normal
| Throws (error : string).

(** The [TypeError] of reading a property of [null], by its text in
    V8; errors are told apart by their text. *)
Definition null_read : string :=
  "TypeError: Cannot read properties of null (reading 'stargazers_count')".

(** A statement runs on the component state and the console (the
    arguments of the calls to [console.error]) and completes normally or
    by throwing. *)
Definition console := list (string * string).

Definition stmt := state * console -> completion * (state * console).

Definition throw (error : string) : stmt := fun w => (Throws error, w).

Definition setStars (v : stars_value) : stmt :=
  fun w => (Normal, (State v (loading w.1), w.2)).

Definition setLoading (b : bool) : stmt :=
  fun w => (Normal, (State (stars w.1) b, w.2)).

Definition console_error (message error : string) : stmt :=
  fun w => (Normal, (w.1, w.2 ++ [(message, error)])).

(** [try { body } catch (error) { handler } finally { fin }]: the handler
    takes what the body throws; [fin] runs in every case, and what the
    handler or [fin] throws goes on to the caller. *)
Definition tryCatchFinally (body : stmt) (handler : string -> stmt)
    (fin : stmt) : stmt :=
  fun w =>
    let '(c1, w1) :=
      match body w with
      | (Normal, w1) => (Normal, w1)
      | (Throws error, w1) => handler error w1
      end in
    match fin w1 with
    | (Normal, w2) => (c1, w2)
    | (Throws error, w2) => (Throws error, w2)
    end.

(** [fetchStars], given what the two awaited calls do. *)
Definition fetchStars (o : outcome) : stmt :=
  tryCatchFinally
    (match o with
     | FetchRejects error => throw error
     | JsonRejects error => throw error
     | Data JsonNull => throw null_read
     | Data (Json stargazers_count) => setStars stargazers_count
     end)
    (fun error => console_error "Error fetching GitHub stars:" error)
    (setLoading false).

(** What the count area shows: the spinner while loading, the formatted
    count afterwards. *)
Definition shown (toLocaleString : number -> string) (st : state)
  : option string :=
  if loading st then None
  else Some (formatStars toLocaleString (stars st)).

End GitHubStar.

(** ** The rest of the selector: trigger, outside clicks, the menu

    Both revisions with a menu share the trigger button
    ([onClick={() => setIsOpen(!isOpen)}]) and the [mousedown] listener
    that is attached to the document while the menu is open; the options
    are rendered, and can be clicked, only while it is open. *)

Module Menu.
Import Component.

Inductive event :=
| TriggerClick                  (* click on the trigger button *)
| MouseDown (inside : bool)     (* selectRef.current.contains(event.target) *)
| KeyDown (key : string)
| OptionClick (n : nat).        (* click on the n-th rendered option *)

Definition toggle : action :=
  fun st => setIsOpen (negb (isOpen st)) st.

Definition handleClickOutside (inside : bool) : action :=
  fun st => if negb inside then setIsOpen false st else skip st.

Definition onMouseDown (inside : bool) : action :=
  fun st => if isOpen st then handleClickOutside inside st else skip st.

(** What [index.tsx] does on an event. *)
Definition step (e : event) : action :=
  match e with
  | TriggerClick => toggle
  | MouseDown inside => onMouseDown inside
  | KeyDown key => VersionSelector.onKeyDown key
  | OptionClick n =>
      fun st =>
        if isOpen st then
          match VersionSelector.options !! n with
          | Some value => VersionSelector.onClick value st
          | None => skip st
          end
        else skip st
  end.

(** What the revision with the disabled preview does on an event. *)
Definition previewStep (e : event) : action :=
  match e with
  | TriggerClick => toggle
  | MouseDown inside => onMouseDown inside
  | KeyDown key => Preview.onKeyDown Preview.options key
  | OptionClick n =>
      fun st =>
        if isOpen st then
          match Preview.options !! n with
          | Some opt => Preview.onClick Preview.options opt st
          | None => skip st
          end
        else skip st
  end.

(** A series of events on one mounted component. *)
Fixpoint run (step : event -> action) (es : list event) : action :=
  match es with
  | [] => skip
  | e :: es' => (step e ;; run step es')
  end.

End Menu.

(** ** The labels of the tag cards

    [tag.replace(/-/g, ' ').replace(/\b\w/g, l => l.toUpperCase())]:
    [\w] is an ASCII letter, digit or underscore, and [\b\w] is such a
    character at the start of the text or after a character that is not
    one. *)

Module TagLabel.

Definition is_word (c : ascii) : bool :=
  let n := nat_of_ascii c in
  ((48 <=? n) && (n <=? 57)) || ((65 <=? n) && (n <=? 90)) ||
  (n =? 95) || ((97 <=? n) && (n <=? 122)).

(** [l.toUpperCase()] of a one-character match of [\w]. *)
Definition toUpperCase (c : ascii) : ascii :=
  let n := nat_of_ascii c in
  if (97 <=? n) && (n <=? 122) then ascii_of_nat (n - 32) else c.

(** [s.replace(/-/g, ' ')] *)
Fixpoint spaced (s : string) : string :=
  match s with
  | EmptyString => EmptyString
  | String c s' =>
      String (if Ascii.eqb c "-" then " "%char else c) (spaced s')
  end.

(** [s.replace(/\b\w/g, l => l.toUpperCase())], reading [s] from a
    position whose previous character is a word character or not. *)
Fixpoint capitalized (after_word : bool) (s : string) : string :=
  match s with
  | EmptyString => EmptyString
  | String c s' =>
      String (if is_word c && negb after_word then toUpperCase c else c)
             (capitalized (is_word c) s')
  end.

Definition tagLabel (tag : string) : string :=
  capitalized false (spaced tag).

End TagLabel.

(** ** The radio cards ([RadioCards.Root], [RadioCards.Item]) *)

Module RadioCards.

Record RootProps := Root {
  defaultValue : option string;
  value : option string;          (* controlledValue *)
  onValueChange : bool            (* whether a callback was given *)
}.

Record ItemProps := Item {
  itemValue : string;             (* value *)
  disabled : bool
}.

(** The state of a root is [uncontrolledValue], initially
    [defaultValue]; a handler returns the state and the arguments of its
    calls to [onValueChange]. *)
Definition state := option string.

Definition initial (props : RootProps) : state := defaultValue props.

(** [controlledValue !== undefined ? controlledValue : uncontrolledValue] *)
Definition contextValue (props : RootProps) (uncontrolledValue : state)
  : option string :=
  match value props with
  | Some controlledValue => Some controlledValue
  | None => uncontrolledValue
  end.

Definition handleValueChange (props : RootProps) (newValue : string)
    (uncontrolledValue : state) : state * list string :=
  (match value props with
   | None => Some newValue
   | Some _ => uncontrolledValue
   end,
   if onValueChange props then [newValue] else []).

(** [selectedValue === value] *)
Definition isChecked (selectedValue : option string) (item : ItemProps)
  : bool :=
  Component.strict_eq selectedValue (itemValue item).

(** [onChange={() => !disabled && onValueChange(value)}] *)
Definition onChange (props : RootProps) (item : ItemProps)
    (uncontrolledValue : state) : state * list string :=
  if negb (disabled item)
  then handleValueChange props (itemValue item) uncontrolledValue
  else (uncontrolledValue, []).

(** A series of changes on the items of one root. *)
Fixpoint changes (props : RootProps) (items : list ItemProps)
    (uncontrolledValue : state) : state * list string :=
  match items with
  | [] => (uncontrolledValue, [])
  | item :: items' =>
      let '(u1, c1) := onChange props item uncontrolledValue in
      let '(u2, c2) := changes props items' u1 in
      (u2, c1 ++ c2)
  end.

(** An item rendered under a root sees the context of that root; without
    one it throws. *)
Definition renderItem (context : option (option string)) (item : ItemProps)
  : string + bool :=
  match context with
  | None => inl "RadioCardsItem must be used within RadioCardsRoot"
  | Some selectedValue => inr (isChecked selectedValue item)
  end.

End RadioCards.

(** ** The tag cards of [DocCardList]

    [DocCardList] renders a controlled root ([value={radioValue}],
    [onValueChange={handleValueChange}], [defaultValue=""]) with one item
    for ["All Categories"] and one per tag, none of them disabled. *)

Module TagCards.
Import DocCardList.

Definition rootProps (selectedTag : option string) : RadioCards.RootProps :=
  RadioCards.Root (Some "") (Some (radioValue selectedTag)) true.

Definition cards : list RadioCards.ItemProps :=
  RadioCards.Item "" false :: map (fun tag => RadioCards.Item tag false) TAGS.

(** The [selectedTag] left by a change on a card, and the state the root
    is left in. *)
Definition choose (card : RadioCards.ItemProps)
    (selectedTag : option string) (uncontrolledValue : RadioCards.state)
  : option string * RadioCards.state :=
  let '(u, calls) :=
    RadioCards.onChange (rootProps selectedTag) card uncontrolledValue in
  (fold_left (fun _ value => handleValueChange value) calls selectedTag, u).

(** The cards shown as checked. *)
Definition checked (selectedTag : option string)
    (uncontrolledValue : RadioCards.state) : list RadioCards.ItemProps :=
  List.filter
    (RadioCards.isChecked
       (RadioCards.contextValue (rootProps selectedTag) uncontrolledValue))
    cards.

End TagCards.

(** ** [DocCard], [CardLayout] and [ImageCard] *)

Module DocCard.
Import DocCardList Conversion.

(** Truthiness of a value. *)
Definition truthyValue (v : jsval) : bool :=
  match v with
  | VUndefined | VNull => false
  | VBool b => b
  | VNum (S754_zero _) | VNum S754_nan => false
  | VNum _ => true
  | VStr s => negb (String.eqb s "")
  | VArr _ | VObj _ => true
  end.

(** A sidebar item as [DocCard] sees it: the fields the filter reads,
    with [type] and the optional [description]. *)
Record sidebarItem := SidebarItem {
  type : string;
  fields : item;
  description : option string
}.

(** What a card shows: the link, the image, the title, the paragraph
    when there is one, and the badges. *)
Record card := Card {
  link : string;
  imageLink : string;
  title : string;
  paragraph : option string;
  badges : list jsval
}.

(** What a component function gives back to the framework: [null], the
    description of a card, or a [TypeError] thrown on the way. *)
Inductive element :=
| Null                          (* return null *)
| Rendered (c : card)
| TypeError.

Record ImageCardProps := Props {
  p_link : string;
  p_imageLink : string;
  p_title : string;
  p_content : option string;
  p_tag : option string;
  p_tags : jsval
}.

(** [tags || (tag ? [tag] : [])] *)
Definition displayTags (props : ImageCardProps) : jsval :=
  if truthyValue (p_tags props) then p_tags props
  else match p_tag props with
       | Some tag => if negb (String.eqb tag "") then VArr [VStr tag]
                     else VArr []
       | None => VArr []
       end.

(** [content && <p>...</p>] *)
Definition shownContent (content : option string) : option string :=
  match content with
  | Some text => if String.eqb text "" then None else Some text
  | None => None
  end.

(** [displayTags.length > 0 && displayTags.map(...)]: a string has a
    length but no [map]; numbers and booleans have no [length]; the
    [length] of an object is its property of that name, compared as any
    value is, and its [map], if it has one, is no function. *)
Definition ImageCard (props : ImageCardProps) : element :=
  let view badges :=
    Rendered (Card (p_link props) (p_imageLink props) (p_title props)
                   (shownContent (p_content props)) badges) in
  match displayTags props with
  | VArr l => view l
  | VStr s => if (0 <? String.length s)%nat then TypeError else view []
  | VObj fields =>
      match greater_than_zero (default VUndefined (fields !! "length")) with
      | Some false => view []
      | Some true => TypeError        (* displayTags.map is not a function *)
      | None => TypeError             (* the length is not convertible *)
      end
  | VBool _ | VNum _ => view []
  | VUndefined | VNull => TypeError   (* no property of it can be read *)
  end.

(** [if (!image) return null] *)
Definition CardLayout (href : string) (image : option string)
    (title : string) (description : option string) (tags : jsval)
  : element :=
  match image with
  | None => Null
  | Some src =>
      if String.eqb src "" then Null
      else ImageCard (Props href src title description None tags)
  end.

(** [typeof item?.customProps?.image === 'string' ? ... : undefined] *)
Definition image (it : item) : option string :=
  match customProps it with
  | Some props =>
      match props !! "image" with
      | Some (VStr s) => Some s
      | _ => None
      end
  | None => None
  end.

(** [DocCard], given [doc?.description] of the document [useDocById]
    finds. *)
Definition DocCard (it : sidebarItem) (docDescription : option string)
  : element :=
  if negb (String.eqb (type it) "link") then Null
  else
    CardLayout (href (fields it)) (image (fields it)) (label (fields it))
      (match description it with
       | Some d => Some d
       | None => docDescription
       end)
      (if truthyValue (tags (fields it)) then tags (fields it)
       else VUndefined).

End DocCard.

(** ** The navigation bar: items by position *)

Module Navbar.

Record navItem := NavItem {
  position : option string;
  itemLabel : string
}.

(** [item.position === side] *)
Definition at_side (side : string) (it : navItem) : bool :=
  match position it with
  | Some p => String.eqb p side
  | None => false
  end.

Definition leftItems (items : list navItem) : list navItem :=
  List.filter (at_side "left") items.

Definition rightItems (items : list navItem) : list navItem :=
  List.filter (at_side "right") items.

End Navbar.

(** * Vocabulary of the statements

    Notions the theorems are stated with; none of them is part of the
    code. *)

Module PathVocabulary.
Import JsString Regex.

(** No suffix of [u +:+ s] that starts inside [u] is matched by [m]. *)
Fixpoint unmatched (m : matcher) (u s : string) : Prop :=
  match u with
  | EmptyString => True
  | String c u' => m (String c (u' +:+ s)) = None /\ unmatched m u' s
  end.

Fixpoint no_slash (w : string) : bool :=
  match w with
  | EmptyString => true
  | String c w' => negb (Ascii.eqb c "/") && no_slash w'
  end.

(** A matcher is [local] when whether it matches at a position does not
    depend on what follows the next ["/"]. *)
Definition local (m : matcher) : Prop :=
  forall c u x y,
    m (String c (u +:+ String "/" x)) = None ->
    m (String c (u +:+ String "/" y)) = None.

(** What [\d*] leaves when nothing has to follow. *)
Fixpoint drop_digits (s : string) : string :=
  match s with
  | String c s' => if is_digit c then drop_digits s' else s
  | EmptyString => EmptyString
  end.

Definition starts_digit (s : string) : bool :=
  match s with
  | String c _ => is_digit c
  | EmptyString => false
  end.

(** [/-v\d+/], the version marker itself. *)
Definition marker : regex := Seq (Lit "-v") Digits1.

Definition strip_marker (x : string) : string :=
  match exec marker x with Some y => y | None => x end.

(** The root the rewriting works on: ["/examples"] is looked for first,
    ["/docs"] only in a path without it. *)
Definition root (p : string) : option string :=
  if includes p "/examples" then Some "/examples"
  else if includes p "/docs" then Some "/docs"
  else None.

(** The text begins with a digit or with a marker [-v<digits>]. *)
Definition begins_versioned (x : string) : bool :=
  starts_digit x ||
  match exec marker x with Some _ => true | None => false end.

(** The path matches a known root and what follows the first occurrence
    of that root begins neither with a digit nor with a marker. *)
Definition plain_root (p : string) : bool :=
  match root p with
  | Some r =>
      match search (strip_prefix r) p with
      | Some (_, x) => negb (begins_versioned x)
      | None => false
      end
  | None => false
  end.

(** The condition under which rewriting [p] for the version [v] a second
    time changes nothing more: for ["v1"], the first occurrence of the
    root is not directly followed by a digit; for ["v0"], once the first
    marker is removed the text from the root on carries no other. *)
Definition settles (p v : string) : bool :=
  match root p with
  | None => true
  | Some r =>
      if String.eqb v "v0" then
        match search (exec (versioned r)) p with
        | Some (_, x) =>
            match search (exec (versioned r)) (r +:+ x) with
            | Some _ => false
            | None => true
            end
        | None => true
        end
      else if String.eqb v "v1" then
        match search (strip_prefix r) p with
        | Some (_, x) => negb (starts_digit x)
        | None => true
        end
      else true
  end.

End PathVocabulary.

Module TagVocabulary.
Import DocCardList.

(** The entry carries the tag: its [tags] field is an array and one of
    its elements is the string [t] itself. *)
Definition carries (t : string) (it : item) : Prop :=
  exists l, tags it = VArr l /\ In (VStr t) l.

(** [R] is made of exactly the entries of [E] that satisfy [P], each as
    often as in [E] and in the order of [E]. *)
Inductive selects (P : item -> Prop) : list item -> list item -> Prop :=
| selects_nil : selects P [] []
| selects_keep it E R : P it -> selects P E R -> selects P (it :: E) (it :: R)
| selects_drop it E R : ~ P it -> selects P E R -> selects P (it :: E) R.

Definition tagged (ts : list string) : item :=
  Item "/e" "entry" (Some {[ "tags" := VArr (map VStr ts) ]}).

Definition untagged : item := Item "/e" "entry" None.

End TagVocabulary.

Module OptionScenario.

(** The options of the keyboard scenario of the specification: [A] and
    [C] enabled, [B] not. *)
Definition abc : list Preview.VersionOption :=
  [ Preview.Option_ "A" "A" false;
    Preview.Option_ "B" "B" true;
    Preview.Option_ "C" "C" false ].

End OptionScenario.

Module MoreVocabulary.
Import JsString.

Fixpoint all_digits (s : string) : bool :=
  match s with
  | EmptyString => true
  | String c s' => is_digit c && all_digits s'
  end.

(** The values of the items that are not disabled, in order. *)
Definition enabled_values (items : list RadioCards.ItemProps) : list string :=
  map RadioCards.itemValue
      (List.filter (fun item => negb (RadioCards.disabled item)) items).

(** [h] is requested somewhere in a series of effects. *)
Definition requested (h : string) (out : Component.state * list Component.effect)
  : Prop :=
  In (Component.Navigate h) out.2.

(** A sidebar item with an image whose [tags] is the object
    [{length: 1}]. *)
Definition sized : DocCardList.item :=
  DocCardList.Item "/e" "entry"
    (Some (<["tags" := DocCardList.VObj
                         ({["length" := DocCardList.VNum (JsNumber.of_Z 1)]}
                          : gmap string DocCardList.jsval)]>
             ({["image" := DocCardList.VStr "img/e.png"]}
              : gmap string DocCardList.jsval))).

End MoreVocabulary.

Module NumberVocabulary.
Import JsNumber.
Local Open Scope Z_scope.

(** Numbers of every kind: zeros, infinities, NaN, integers, fractions,
    the least and the greatest number, and numbers beyond [2^53]. *)
Definition samples : list number :=
  [ S754_zero false; S754_zero true; S754_infinity false;
    S754_infinity true; S754_nan;
    of_Z 1; of_Z 3; of_Z 10; of_Z 100; of_Z 1000; of_Z 9999; of_Z 12345;
    of_Z (- 7); of_Z (2 ^ 53 - 1); of_Z (2 ^ 56 + 560);
    round64 false 1 10; round64 false 4 10000; round64 true 9999996 10000;
    S754_finite false 1 (-1074);
    S754_finite false 4503599627370496 (-1074);
    S754_finite false 9007199254740991 971 ].





End NumberVocabulary.

(** * Facts about searching and replacing *)

Module SearchFacts.
Import JsString PathVocabulary.

#[local] Arguments String.append !s1 s2 /.

Lemma append_assoc (a b c : string) : (a +:+ b) +:+ c = a +:+ (b +:+ c).
Proof. induction a as [|x a IH]; simpl; [reflexivity | now rewrite IH]. Qed.

Lemma append_nil_r (a : string) : a +:+ "" = a.
Proof. induction a as [|x a IH]; simpl; [reflexivity | now rewrite IH]. Qed.

Lemma append_length (a b : string) :
  String.length (a +:+ b) = String.length a + String.length b.
Proof. induction a as [|x a IH]; simpl; [reflexivity | now rewrite IH]. Qed.

Lemma strip_prefix_cons (a b : ascii) (n s : string) :
  strip_prefix (String a n) (String b s) =
  if Ascii.eqb a b then strip_prefix n s else None.
Proof. reflexivity. Qed.

Lemma strip_prefix_app (n t : string) : strip_prefix n (n +:+ t) = Some t.
Proof.
  induction n as [|a n IH]; simpl; [reflexivity|].
  now rewrite Ascii.eqb_refl.
Qed.

Lemma strip_prefix_Some (n s t : string) :
  strip_prefix n s = Some t -> s = n +:+ t.
Proof.
  revert s; induction n as [|a n IH]; intros s H; simpl in *.
  - congruence.
  - destruct s as [|b s]; [discriminate|].
    destruct (Ascii.eqb_spec a b) as [->|]; [|discriminate].
    now rewrite (IH _ H).
Qed.

Lemma unmatched_app (m : matcher) (a b s : string) :
  unmatched m (a +:+ b) s <-> unmatched m a (b +:+ s) /\ unmatched m b s.
Proof.
  induction a as [|c a IH]; simpl.
  - tauto.
  - rewrite IH, append_assoc. tauto.
Qed.

Lemma unmatched_ext (m1 m2 : matcher) (u s : string) :
  (forall t, m1 t = None -> m2 t = None) ->
  unmatched m1 u s -> unmatched m2 u s.
Proof.
  intros Hm; induction u as [|c u IH]; simpl; [trivial|].
  intros [H1 H2]; split; auto.
Qed.

Lemma search_found (m : matcher) (u s rest : string) :
  unmatched m u s -> m s = Some rest ->
  search m (u +:+ s) = Some (u, rest).
Proof.
  intros Hu Hs; induction u as [|c u IH]; simpl in *.
  - destruct s; simpl; now rewrite Hs.
  - destruct Hu as [Hc Hu]. rewrite Hc, (IH Hu). reflexivity.
Qed.

Lemma search_inv (m : matcher) (p u rest : string) :
  search m p = Some (u, rest) ->
  exists s, p = u +:+ s /\ unmatched m u s /\ m s = Some rest.
Proof.
  revert u; induction p as [|c p IH]; intros u H; simpl in H.
  - destruct (m "") as [r|] eqn:E; [|discriminate].
    injection H as <- <-. exists "". simpl. auto.
  - destruct (m (String c p)) as [r|] eqn:E.
    + injection H as <- <-. exists (String c p). simpl. auto.
    + destruct (search m p) as [[u' r']|] eqn:E'; [|discriminate].
      injection H as <- <-.
      destruct (IH _ eq_refl) as (s & -> & Hu & Hs).
      exists s. simpl. auto.
Qed.

Lemma search_None (m : matcher) (p : string) :
  search m p = None <-> unmatched m p "" /\ m "" = None.
Proof.
  induction p as [|c p IH]; simpl.
  - destruct (m ""); split; intros; try tauto; try discriminate.
    destruct H; discriminate.
  - rewrite append_nil_r.
    destruct (m (String c p)) as [r|] eqn:E.
    + split; [discriminate | intros [[? _] _]; discriminate].
    + destruct (search m p) as [[u' r']|] eqn:E'.
      * split; [discriminate|]. intros [[_ H] H0].
        assert (Some (u', r') = None) by (apply IH; auto). discriminate.
      * split; [|reflexivity]. intros _.
        destruct IH as [IH _]. destruct (IH eq_refl). auto.
Qed.

Lemma search_suffix_None (m : matcher) (u s : string) :
  search m (u +:+ s) = None -> search m s = None.
Proof.
  induction u as [|c u IH]; simpl; [trivial|].
  destruct (m (String c (u +:+ s))); [discriminate|].
  destruct (search m (u +:+ s)) as [[? ?]|]; [discriminate|]. auto.
Qed.

Lemma search_exists (m : matcher) (u s rest : string) :
  m s = Some rest -> search m (u +:+ s) <> None.
Proof.
  intros Hs H. apply search_suffix_None in H.
  destruct s; simpl in H; rewrite Hs in H; discriminate.
Qed.

Lemma includes_true (p n : string) :
  includes p n = true <->
  exists u x, search (strip_prefix n) p = Some (u, x).
Proof.
  unfold includes. destruct (search (strip_prefix n) p) as [[u x]|].
  - split; eauto.
  - split; [discriminate | intros (? & ? & ?); discriminate].
Qed.

Lemma includes_false (p n : string) :
  includes p n = false <-> search (strip_prefix n) p = None.
Proof.
  unfold includes. destruct (search (strip_prefix n) p) as [[u x]|].
  - split; discriminate.
  - tauto.
Qed.

Lemma includes_app (u n x : string) : includes (u +:+ n +:+ x) n = true.
Proof.
  unfold includes.
  destruct (search (strip_prefix n) (u +:+ n +:+ x)) eqn:E; [reflexivity|].
  exfalso. eapply search_exists; [apply strip_prefix_app | exact E].
Qed.

Lemma replace_found (m : matcher) (repl p u rest : string) :
  search m p = Some (u, rest) -> replace m repl p = u +:+ repl +:+ rest.
Proof. unfold replace. now intros ->. Qed.

Lemma replace_unmatched (m : matcher) (repl p : string) :
  search m p = None -> replace m repl p = p.
Proof. unfold replace. now intros ->. Qed.

(** *** Slashes bound the matches

    A pattern made of characters other than ["/"] cannot reach across a
    ["/"] of the text. *)

Lemma strip_prefix_slash (w u x : string) :
  no_slash w = true ->
  strip_prefix w (u +:+ String "/" x) =
  match strip_prefix w u with
  | Some t => Some (t +:+ String "/" x)
  | None => None
  end.
Proof.
  revert u; induction w as [|a w IH]; intros u Hw; simpl in *.
  - reflexivity.
  - apply andb_prop in Hw as [Ha Hw].
    destruct u as [|b u]; simpl.
    + destruct (Ascii.eqb a "/"); [discriminate | reflexivity].
    + destruct (Ascii.eqb a b); [now apply IH | reflexivity].
Qed.

Lemma unmatched_local (m : matcher) (u x y : string) :
  local m ->
  unmatched m u (String "/" x) -> unmatched m u (String "/" y).
Proof.
  intros Hm; induction u as [|c u IH]; simpl; [trivial|].
  intros [H1 H2]; split; eauto.
Qed.

Lemma strip_prefix_local (w : string) :
  no_slash w = true -> local (strip_prefix (String "/" w)).
Proof.
  intros Hw c u x y. rewrite !strip_prefix_cons.
  destruct (Ascii.eqb "/" c); [|reflexivity].
  rewrite !strip_prefix_slash by assumption.
  destruct (strip_prefix w u); [discriminate | reflexivity].
Qed.

End SearchFacts.

(** * Facts about the two regular expressions *)

Module RegexFacts.
Import JsString Regex PathVocabulary SearchFacts.

#[local] Arguments String.append !s1 s2 /.

Lemma digits_then_Some (s : string) : digits_then s Some = Some (drop_digits s).
Proof.
  induction s as [|c s IH]; simpl; [reflexivity|].
  destruct (is_digit c); [now rewrite IH | reflexivity].
Qed.

Lemma drop_digits_fixed (s : string) :
  starts_digit s = false -> drop_digits s = s.
Proof. destruct s as [|c s]; simpl; [reflexivity | now intros ->]. Qed.

Lemma drop_digits_no_digit (s : string) : starts_digit (drop_digits s) = false.
Proof.
  induction s as [|c s IH]; simpl; [reflexivity|].
  destruct (is_digit c) eqn:E; [exact IH | simpl; exact E].
Qed.

Lemma drop_digits_suffix (s : string) : exists a, s = a +:+ drop_digits s.
Proof.
  induction s as [|c s [a IH]]; simpl.
  - now exists "".
  - destruct (is_digit c); [|now exists ""].
    exists (String c a). simpl. now rewrite <- IH.
Qed.

Lemma drop_digits_length (s : string) :
  String.length (drop_digits s) <= String.length s.
Proof.
  induction s as [|c s IH]; simpl; [lia|].
  destruct (is_digit c); simpl; lia.
Qed.

Lemma strip_prefix_seq (a b s : string) :
  strip_prefix (a +:+ b) s =
  match strip_prefix a s with
  | Some t => strip_prefix b t
  | None => None
  end.
Proof.
  revert s; induction a as [|c a IH]; intros s; simpl; [reflexivity|].
  destruct s as [|d s]; [reflexivity|].
  destruct (Ascii.eqb c d); [apply IH | reflexivity].
Qed.

Lemma exec_digits1 (t : string) :
  exec Digits1 t =
  if starts_digit t then Some (drop_digits t) else None.
Proof.
  unfold exec; destruct t as [|d t]; simpl; [reflexivity|].
  destruct (is_digit d); [apply digits_then_Some | reflexivity].
Qed.

Lemma exec_marker (x : string) :
  exec marker x =
  match strip_prefix "-v" x with
  | Some t => exec Digits1 t
  | None => None
  end.
Proof. reflexivity. Qed.

Lemma exec_versioned (r s : string) :
  exec (versioned r) s =
  match strip_prefix r s with
  | Some x => exec marker x
  | None => None
  end.
Proof.
  unfold exec, versioned. cbn [rmatch]. rewrite strip_prefix_seq.
  destruct (strip_prefix r s); reflexivity.
Qed.

Lemma exec_maybe_versioned (r s : string) :
  exec (maybe_versioned r) s =
  match strip_prefix r s with
  | Some x => Some (strip_marker x)
  | None => None
  end.
Proof.
  change (exec (maybe_versioned r) s) with
    (match strip_prefix r s with
     | Some s' => match exec marker s' with
                  | Some y => Some y
                  | None => Some s'
                  end
     | None => None
     end).
  unfold strip_marker.
  destruct (strip_prefix r s) as [x|]; [|reflexivity].
  destruct (exec marker x); reflexivity.
Qed.

Lemma exec_marker_v1 (y : string) :
  exec marker ("-v1" +:+ y) = Some (drop_digits y).
Proof. rewrite exec_marker. simpl. rewrite exec_digits1. reflexivity. Qed.

Lemma exec_marker_no_digit (x : string) :
  exec marker x <> None -> starts_digit x = false.
Proof.
  destruct x as [|c x]; [reflexivity|]. rewrite exec_marker.
  rewrite strip_prefix_cons.
  destruct (Ascii.eqb_spec "-" c) as [<-|]; [reflexivity | congruence].
Qed.

Lemma exec_marker_suffix (x y : string) :
  exec marker x = Some y -> exists a, x = a +:+ y /\ a <> "".
Proof.
  rewrite exec_marker. destruct (strip_prefix "-v" x) as [t|] eqn:E;
    [|discriminate].
  apply strip_prefix_Some in E as ->. rewrite exec_digits1.
  destruct (starts_digit t); [|discriminate]. intros [= <-].
  destruct (drop_digits_suffix t) as [a Ha].
  exists ("-v" +:+ a). split; [|discriminate].
  rewrite append_assoc, <- Ha. reflexivity.
Qed.

Lemma strip_marker_suffix (x : string) : exists a, x = a +:+ strip_marker x.
Proof.
  unfold strip_marker. destruct (exec marker x) as [y|] eqn:E.
  - destruct (exec_marker_suffix _ _ E) as (a & Ha & _). eauto.
  - now exists "".
Qed.

Lemma strip_marker_no_digit (x : string) :
  starts_digit x = false -> starts_digit (strip_marker x) = false.
Proof.
  unfold strip_marker. rewrite exec_marker.
  destruct (strip_prefix "-v" x) as [t|]; [|trivial].
  rewrite exec_digits1. destruct (starts_digit t); [|trivial].
  intros _. apply drop_digits_no_digit.
Qed.

(** *** Locality of the two expressions *)

Lemma exec_marker_slash (t x y : string) :
  exec marker (t +:+ String "/" x) = None ->
  exec marker (t +:+ String "/" y) = None.
Proof.
  rewrite !exec_marker, !strip_prefix_slash by reflexivity.
  destruct (strip_prefix "-v" t) as [t2|]; [|reflexivity].
  rewrite !exec_digits1. destruct t2 as [|d t2]; simpl; [reflexivity|].
  destruct (is_digit d); [discriminate | reflexivity].
Qed.

Lemma exec_versioned_local (w : string) :
  no_slash w = true -> local (exec (versioned (String "/" w))).
Proof.
  intros Hw c u x y. rewrite !exec_versioned, !strip_prefix_cons.
  destruct (Ascii.eqb "/" c); [|reflexivity].
  rewrite !strip_prefix_slash by assumption.
  destruct (strip_prefix w u); [apply exec_marker_slash | reflexivity].
Qed.

Lemma exec_versioned_None (r t : string) :
  strip_prefix r t = None -> exec (versioned r) t = None.
Proof. intros H. now rewrite exec_versioned, H. Qed.

Lemma exec_maybe_versioned_None (r t : string) :
  strip_prefix r t = None -> exec (maybe_versioned r) t = None.
Proof. intros H. now rewrite exec_maybe_versioned, H. Qed.

End RegexFacts.

(** * Facts about the path rewriting of the version selector *)

Module RewriteFacts.
Import JsString Regex PathVocabulary SearchFacts RegexFacts Component.
Import VersionSelector.

#[local] Arguments String.append !s1 s2 /.

Lemma newPath_v0 (p : string) :
  newPath p "v0" =
  match root p with
  | Some r => replace (exec (versioned r)) r p
  | None => p
  end.
Proof.
  unfold newPath, root. simpl.
  destruct (includes p "/examples"); [reflexivity|].
  destruct (includes p "/docs"); reflexivity.
Qed.

Lemma newPath_v1 (p : string) :
  newPath p "v1" =
  match root p with
  | Some r => replace (exec (maybe_versioned r)) (r +:+ "-v1") p
  | None => p
  end.
Proof.
  unfold newPath, root. simpl.
  destruct (includes p "/examples"); [reflexivity|].
  destruct (includes p "/docs"); reflexivity.
Qed.

Lemma newPath_other (p v : string) :
  v <> "v0" -> v <> "v1" -> newPath p v = p.
Proof.
  intros H0 H1. unfold newPath.
  apply String.eqb_neq in H0 as ->. apply String.eqb_neq in H1 as ->.
  reflexivity.
Qed.

Lemma newPath_rootless (p v : string) : root p = None -> newPath p v = p.
Proof.
  unfold root, newPath.
  destruct (includes p "/examples"); [discriminate|].
  destruct (includes p "/docs"); [discriminate|]. intros _.
  destruct (String.eqb v "v0"); [reflexivity|].
  destruct (String.eqb v "v1"); reflexivity.
Qed.

Lemma root_cases (p r : string) :
  root p = Some r ->
  (r = "/examples" /\ includes p "/examples" = true) \/
  (r = "/docs" /\ includes p "/examples" = false /\
   includes p "/docs" = true).
Proof.
  unfold root. destruct (includes p "/examples").
  - intros [= <-]. auto.
  - destruct (includes p "/docs"); [|discriminate]. intros [= <-]. auto.
Qed.

Lemma root_token (p r : string) :
  root p = Some r -> exists w, r = String "/" w /\ no_slash w = true.
Proof.
  intros H. destruct (root_cases _ _ H) as [[-> _]|[-> _]]; eauto.
Qed.

Lemma root_found (p r : string) :
  root p = Some r -> exists u x, search (strip_prefix r) p = Some (u, x).
Proof.
  intros H. apply includes_true.
  destruct (root_cases _ _ H) as [[-> ?]|[-> [_ ?]]]; assumption.
Qed.

Lemma unmatched_no_slash (w b s : string) :
  no_slash b = true -> unmatched (strip_prefix (String "/" w)) b s.
Proof.
  induction b as [|c b IH]; cbn [unmatched no_slash]; [trivial|].
  intros [Hc Hb]%andb_prop. split; [|auto].
  rewrite strip_prefix_cons, Ascii.eqb_sym.
  now destruct (Ascii.eqb c "/").
Qed.

Lemma no_examples_graft (u a b z : string) :
  includes (u +:+ "/docs" +:+ a +:+ z) "/examples" = false ->
  no_slash b = true ->
  includes (u +:+ "/docs" +:+ b +:+ z) "/examples" = false.
Proof.
  intros H Hb. apply includes_false, search_None.
  apply includes_false, search_None in H as [H _].
  split; [|reflexivity].
  apply unmatched_app in H as [Hu H]. rewrite append_nil_r in Hu.
  change ("/docs" +:+ a +:+ z) with (String "/" ("docs" +:+ a +:+ z)) in H.
  destruct H as [_ H].
  apply unmatched_app in H as [_ H]. apply unmatched_app in H as [_ Hz].
  apply unmatched_app. rewrite append_nil_r. split.
  - revert Hu. apply unmatched_local. now apply strip_prefix_local.
  - change ("/docs" +:+ b +:+ z) with (String "/" ("docs" +:+ b +:+ z)).
    split; [reflexivity|].
    apply unmatched_app. split; [now apply unmatched_no_slash|].
    apply unmatched_app. split; [now apply unmatched_no_slash | exact Hz].
Qed.

(** Putting a slash-free text between the root and a suffix of what
    followed it keeps the root the code selects. *)
Lemma root_preserved (u r a b z : string) :
  root (u +:+ r +:+ a +:+ z) = Some r ->
  no_slash b = true ->
  root (u +:+ r +:+ b +:+ z) = Some r.
Proof.
  intros H Hb. destruct (root_cases _ _ H) as [[-> _]|[-> [Hx _]]].
  - unfold root. now rewrite includes_app.
  - unfold root. rewrite (no_examples_graft _ _ _ _ Hx Hb).
    now rewrite includes_app.
Qed.

Section OneRoot.
Variable w : string.
Hypothesis Hw : no_slash w = true.
Let r := String "/" w.

Lemma to_v1 (p u x : string) :
  search (strip_prefix r) p = Some (u, x) ->
  replace (exec (maybe_versioned r)) (r +:+ "-v1") p =
  u +:+ r +:+ "-v1" +:+ strip_marker x.
Proof using Type.
  intros H. destruct (search_inv _ _ _ _ H) as (s & -> & Hu & Hs).
  rewrite (replace_found _ _ _ u (strip_marker x)).
  - now rewrite append_assoc.
  - apply search_found.
    + revert Hu. apply unmatched_ext, exec_maybe_versioned_None.
    + now rewrite exec_maybe_versioned, Hs.
Qed.

Lemma root_again (u x y : string) :
  unmatched (strip_prefix r) u (r +:+ x) ->
  search (strip_prefix r) (u +:+ r +:+ y) = Some (u, y).
Proof using Hw.
  intros Hu. apply search_found; [|apply strip_prefix_app].
  revert Hu. apply unmatched_local. now apply strip_prefix_local.
Qed.

Lemma v1_then_v1 (u x y : string) :
  unmatched (strip_prefix r) u (r +:+ x) ->
  replace (exec (maybe_versioned r)) (r +:+ "-v1")
          (u +:+ r +:+ "-v1" +:+ y) =
  u +:+ r +:+ "-v1" +:+ drop_digits y.
Proof using Hw.
  intros Hu. rewrite (to_v1 _ u ("-v1" +:+ y)).
  - unfold strip_marker. now rewrite exec_marker_v1.
  - now apply (root_again u x).
Qed.

Lemma v1_then_v0 (u x y : string) :
  unmatched (strip_prefix r) u (r +:+ x) ->
  replace (exec (versioned r)) r (u +:+ r +:+ "-v1" +:+ y) =
  u +:+ r +:+ drop_digits y.
Proof using Hw.
  intros Hu. apply replace_found, search_found.
  - apply (unmatched_ext (strip_prefix r));
      [apply exec_versioned_None|].
    revert Hu. apply unmatched_local. now apply strip_prefix_local.
  - rewrite exec_versioned, strip_prefix_app. apply exec_marker_v1.
Qed.

Lemma v0_then_v0 (p u x : string) :
  search (exec (versioned r)) p = Some (u, x) ->
  search (exec (versioned r)) (r +:+ x) = None ->
  search (exec (versioned r)) (u +:+ r +:+ x) = None.
Proof using Hw.
  intros H Hx. destruct (search_inv _ _ _ _ H) as (s & -> & Hu & Hs).
  apply search_None in Hx as [Hx H0].
  apply search_None. split; [|exact H0].
  apply unmatched_app. split; [|exact Hx].
  rewrite append_nil_r. rewrite exec_versioned in Hs.
  destruct (strip_prefix r s) as [t|] eqn:E; [|discriminate].
  apply strip_prefix_Some in E as ->.
  revert Hu. apply unmatched_local. now apply exec_versioned_local.
Qed.

End OneRoot.

Lemma navigation_navigate (st : state) (href : string) :
  navigation ((setIsOpen false ;; emit (Navigate href)) st) = Some href.
Proof. reflexivity. Qed.

Lemma handleVersionChange_navigates (st : state) (v : string) :
  v <> currentVersion st ->
  handleVersionChange v st =
  (State (pathname st) (currentVersion st) false,
   [Navigate (newPath (pathname st) v)]).
Proof.
  intros H. unfold handleVersionChange.
  apply String.eqb_neq in H as ->. reflexivity.
Qed.

Lemma detectVersion_marked (u r y : string) :
  r = "/examples" \/ r = "/docs" ->
  detectVersion (u +:+ r +:+ "-v1" +:+ y) = "v1".
Proof.
  intros [->| ->]; unfold detectVersion.
  - change (u +:+ "/examples" +:+ "-v1" +:+ y)
      with (u +:+ "/examples-v1" +:+ y).
    now rewrite includes_app.
  - change (u +:+ "/docs" +:+ "-v1" +:+ y) with (u +:+ "/docs-v1" +:+ y).
    rewrite (includes_app u "/docs-v1"). now rewrite orb_true_r.
Qed.

(** Where a path that matches a root lands after a switch to ["v1"] and
    back to ["v0"]. *)
Lemma there_and_back (p r u x : string) :
  root p = Some r ->
  search (strip_prefix r) p = Some (u, x) ->
  newPath p "v1" = u +:+ r +:+ "-v1" +:+ strip_marker x /\
  newPath (newPath p "v1") "v0" =
    u +:+ r +:+ drop_digits (strip_marker x).
Proof.
  intros Hr Hs. destruct (root_token _ _ Hr) as (w & -> & Hw).
  assert (H1 : newPath p "v1" =
               u +:+ String "/" w +:+ "-v1" +:+ strip_marker x).
  { rewrite newPath_v1, Hr. now apply to_v1. }
  split; [exact H1|]. rewrite H1, newPath_v0.
  destruct (search_inv _ _ _ _ Hs) as (s & -> & Hu & Hx).
  apply strip_prefix_Some in Hx as ->.
  destruct (strip_marker_suffix x) as [a Ha].
  rewrite Ha in Hr at 1.
  rewrite (root_preserved u (String "/" w) a "-v1" _ Hr eq_refl).
  now apply (v1_then_v0 w Hw u x).
Qed.

(** The rewriting of the preview revision gives a base path or the empty
    string, and neither is rewritten further. *)
Lemma preview_rewrite_stable (p v : string) :
  Preview.newPath (Preview.newPath p v) v = Preview.newPath p v.
Proof.
  unfold Preview.newPath. destruct (String.eqb v "v0"); [|reflexivity].
  destruct (includes p "/examples"); [reflexivity|].
  destruct (includes p "/docs"); reflexivity.
Qed.

(** *** The two conditions are the exact ones *)

Lemma append_inv_head (a x y : string) : a +:+ x = a +:+ y -> x = y.
Proof.
  induction a as [|c a IH]; simpl; [trivial|]. intros [= H]. auto.
Qed.

Lemma drop_digits_shorter (s : string) :
  starts_digit s = true ->
  String.length (drop_digits s) < String.length s.
Proof.
  destruct s as [|c s]; simpl; [discriminate|]. intros ->.
  pose proof (drop_digits_length s). lia.
Qed.

Lemma exec_marker_shorter (x y : string) :
  exec marker x = Some y -> String.length y < String.length x.
Proof.
  intros (a & -> & Ha)%exec_marker_suffix. rewrite append_length.
  destruct a; [congruence | simpl; lia].
Qed.

Lemma strip_marker_digit (x : string) :
  starts_digit x = true -> strip_marker x = x.
Proof.
  intros H. unfold strip_marker.
  destruct (exec marker x) eqn:E; [|reflexivity].
  rewrite exec_marker_no_digit in H; [discriminate | congruence].
Qed.

(** A path that matches a root comes back from ["v1"] unchanged only if
    its root is plain. *)
Lemma roundtrip_only_plain (p : string) :
  root p <> None ->
  newPath (newPath p "v1") "v0" = p -> plain_root p = true.
Proof.
  intros Hr H. unfold plain_root.
  destruct (root p) as [r|] eqn:Er; [clear Hr | congruence].
  destruct (root_found _ _ Er) as (u & x & Hs). rewrite Hs.
  destruct (there_and_back _ _ _ _ Er Hs) as [_ H2]. rewrite H2 in H.
  destruct (search_inv _ _ _ _ Hs) as (s & Hp & _ & Hx).
  apply strip_prefix_Some in Hx. subst s. rewrite Hp in H.
  apply append_inv_head, append_inv_head in H.
  apply negb_true_iff, orb_false_intro.
  - destruct (starts_digit x) eqn:Hd; [|reflexivity].
    rewrite (strip_marker_digit _ Hd) in H.
    pose proof (drop_digits_shorter _ Hd) as L. rewrite H in L. lia.
  - destruct (exec marker x) as [y|] eqn:Hm; [|reflexivity].
    unfold strip_marker in H. rewrite Hm in H.
    pose proof (exec_marker_shorter _ _ Hm).
    pose proof (drop_digits_length y) as L. rewrite H in L. lia.
Qed.

Lemma replace_versioned_shorter (r p u x : string) :
  search (exec (versioned r)) p = Some (u, x) ->
  String.length (replace (exec (versioned r)) r p) < String.length p.
Proof.
  intros H. rewrite (replace_found _ _ _ _ _ H).
  destruct (search_inv _ _ _ _ H) as (s & -> & _ & Hm).
  rewrite exec_versioned in Hm.
  destruct (strip_prefix r s) as [t|] eqn:Ht; [|discriminate].
  apply strip_prefix_Some in Ht as ->.
  apply exec_marker_shorter in Hm.
  rewrite !append_length. lia.
Qed.

(** A path that does not settle for a version is changed again by the
    second rewrite. *)
Lemma unsettled_changes_again (p v : string) :
  settles p v = false -> newPath (newPath p v) v <> newPath p v.
Proof.
  unfold settles. destruct (root p) as [r|] eqn:Hr; [|discriminate].
  destruct (root_token _ _ Hr) as (w & -> & Hw).
  destruct (String.eqb_spec v "v0") as [->|Hv0].
  - destruct (search (exec (versioned (String "/" w))) p)
      as [[u x]|] eqn:Hs; [|discriminate].
    destruct (search (exec (versioned (String "/" w)))
                     (String "/" w +:+ x)) as [[u' x']|] eqn:Hx;
      [|discriminate].
    intros _.
    assert (H1 : newPath p "v0" = u +:+ String "/" w +:+ x).
    { rewrite newPath_v0, Hr. now apply replace_found. }
    rewrite H1, newPath_v0.
    destruct (search_inv _ _ _ _ Hs) as (s & -> & Hu & Hm).
    rewrite exec_versioned in Hm.
    destruct (strip_prefix (String "/" w) s) as [t|] eqn:Ht; [|discriminate].
    apply strip_prefix_Some in Ht as ->.
    destruct (exec_marker_suffix _ _ Hm) as (a & -> & _).
    assert (Hr' : root (u +:+ String "/" w +:+ x) = Some (String "/" w))
      by exact (root_preserved u (String "/" w) a "" x Hr eq_refl).
    rewrite Hr'.
    destruct (search (exec (versioned (String "/" w)))
                     (u +:+ String "/" w +:+ x)) as [[u2 x2]|] eqn:H2.
    + pose proof (replace_versioned_shorter _ _ _ _ H2) as L.
      intros E. rewrite E in L. lia.
    + apply search_suffix_None in H2. congruence.
  - destruct (String.eqb_spec v "v1") as [->|Hv1]; [|discriminate].
    destruct (root_found _ _ Hr) as (u & x & Hs). rewrite Hs.
    intros Hd%negb_false_iff.
    destruct (there_and_back _ _ _ _ Hr Hs) as [H1 _].
    rewrite H1, newPath_v1, (strip_marker_digit _ Hd).
    destruct (search_inv _ _ _ _ Hs) as (s & Hp & Hu & Hx).
    apply strip_prefix_Some in Hx. subst s p.
    rewrite (root_preserved u (String "/" w) "" "-v1" _ Hr eq_refl).
    rewrite (v1_then_v1 w Hw u x _ Hu).
    intros E. do 3 apply append_inv_head in E.
    pose proof (drop_digits_shorter _ Hd) as L. rewrite E in L. lia.
Qed.

End RewriteFacts.

(** * Facts about numbers and their texts *)

Module NumberFacts.
Import JsNumber.
Local Open Scope Z_scope.

#[local] Arguments String.append !s1 s2 /.

Lemma pow2_gt0 (k : Z) : 0 <= k -> 0 < 2 ^ k.
Proof. intros. now apply Z.pow_pos_nonneg. Qed.

Lemma pow2_add (a b : Z) : 0 <= a -> 0 <= b -> 2 ^ (a + b) = 2 ^ a * 2 ^ b.
Proof. intros. now apply Z.pow_add_r. Qed.

Lemma pow2_succ (a : Z) : 0 <= a -> 2 ^ (a + 1) = 2 * 2 ^ a.
Proof. intros. rewrite Z.pow_add_r by lia. lia. Qed.

(** [scaled a b e] stands for [a / (b * 2^e)]. *)
Lemma scaled_cases (a b e : Z) :
  (0 <= e /\ scaled a b e = (a, b * 2 ^ e)) \/
  (e < 0 /\ scaled a b e = (a * 2 ^ (- e), b)).
Proof.
  unfold scaled. destruct (Z.leb_spec 0 e); [left | right]; auto.
Qed.

Lemma scaled_step (a b e : Z) :
  0 < b ->
  let '(A, B) := scaled a b e in
  let '(A', B') := scaled a b (e + 1) in
  0 < B /\ 0 < B' /\ A * B' = A' * (2 * B).
Proof.
  intros Hb.
  destruct (scaled_cases a b e) as [[He ->]|[He ->]];
    destruct (scaled_cases a b (e + 1)) as [[He' ->]|[He' ->]]; try lia.
  - rewrite pow2_succ by lia. pose proof (pow2_gt0 e He). nia.
  - assert (e = -1) by lia. subst e. simpl. lia.
  - replace (- e) with (- (e + 1) + 1) by lia.
    rewrite pow2_succ by lia. pose proof (pow2_gt0 (- (e + 1)) ltac:(lia)).
    nia.
Qed.

Lemma scaled_pos (a b e : Z) :
  0 < a -> 0 < b -> 0 < (scaled a b e).1 /\ 0 < (scaled a b e).2.
Proof.
  intros Ha Hb.
  destruct (scaled_cases a b e) as [[He ->]|[He ->]]; simpl.
  - pose proof (pow2_gt0 e He). nia.
  - pose proof (pow2_gt0 (- e) ltac:(lia)). nia.
Qed.

(** The ratio grows with the exponent going down. *)
Lemma scaled_mono (a b e e' : Z) :
  0 < a -> 0 < b -> e <= e' ->
  (scaled a b e').1 * (scaled a b e).2 * 2 ^ (e' - e)
  = (scaled a b e).1 * (scaled a b e').2.
Proof.
  intros Ha Hb Hle.
  destruct (scaled_cases a b e) as [[He ->]|[He ->]];
    destruct (scaled_cases a b e') as [[He' ->]|[He' ->]]; simpl; try lia.
  - replace e' with (e + (e' - e)) at 2 by lia.
    rewrite pow2_add by lia. ring.
  - replace (e' - e) with (- e + e') by lia.
    rewrite pow2_add by lia. ring.
  - replace (- e) with (- e' + (e' - e)) by lia.
    rewrite pow2_add by lia. ring.
Qed.

Lemma floor_log2_spec (a b : Z) :
  0 < a -> 0 < b ->
  (scaled a b (floor_log2 a b)).2 <= (scaled a b (floor_log2 a b)).1
  /\ (scaled a b (floor_log2 a b)).1 < 2 * (scaled a b (floor_log2 a b)).2.
Proof.
  intros Ha Hb. unfold floor_log2.
  set (l := Z.log2 a - Z.log2 b).
  pose proof (Z.log2_spec a Ha) as [La1 La2].
  pose proof (Z.log2_spec b Hb) as [Lb1 Lb2].
  pose proof (Z.log2_nonneg a). pose proof (Z.log2_nonneg b).
  rewrite <- Z.add_1_r in La2, Lb2.
  rewrite pow2_succ in La2, Lb2 by lia.
  assert (Hup : (scaled a b l).1 < 2 * (scaled a b l).2).
  { destruct (scaled_cases a b l) as [[He ->]|[He ->]]; simpl.
    - assert (E : 2 ^ Z.log2 a = 2 ^ Z.log2 b * 2 ^ l).
      { rewrite <- pow2_add by lia. f_equal. lia. }
      pose proof (pow2_gt0 l He). nia.
    - assert (E : 2 ^ Z.log2 b = 2 ^ Z.log2 a * 2 ^ (- l)).
      { rewrite <- pow2_add by lia. f_equal. lia. }
      pose proof (pow2_gt0 (- l) ltac:(lia)).
      pose proof (pow2_gt0 (Z.log2 a) ltac:(lia)). nia. }
  assert (Hlow : 2 * (scaled a b l).1 > (scaled a b l).2).
  { destruct (scaled_cases a b l) as [[He ->]|[He ->]]; simpl.
    - assert (E : 2 ^ Z.log2 a = 2 ^ Z.log2 b * 2 ^ l).
      { rewrite <- pow2_add by lia. f_equal. lia. }
      pose proof (pow2_gt0 l He). nia.
    - assert (E : 2 ^ Z.log2 b = 2 ^ Z.log2 a * 2 ^ (- l)).
      { rewrite <- pow2_add by lia. f_equal. lia. }
      pose proof (pow2_gt0 (- l) ltac:(lia)).
      pose proof (pow2_gt0 (Z.log2 a) ltac:(lia)). nia. }
  destruct (scaled a b l) as [A B] eqn:E. simpl in Hup, Hlow.
  destruct (Z.leb_spec B A) as [Hc|Hc].
  - rewrite E. simpl. lia.
  - pose proof (scaled_step a b (l - 1) Hb) as S.
    replace (l - 1 + 1) with l in S by lia. rewrite E in S.
    destruct (scaled a b (l - 1)) as [A' B']. simpl.
    destruct S as (S1 & S2 & S3). nia.
Qed.

Lemma floor_log2_unique (a b l : Z) :
  0 < a -> 0 < b ->
  (scaled a b l).2 <= (scaled a b l).1 < 2 * (scaled a b l).2 ->
  floor_log2 a b = l.
Proof.
  intros Ha Hb H.
  pose proof (floor_log2_spec a b Ha Hb) as H'.
  set (l' := floor_log2 a b) in *.
  pose proof (scaled_pos a b l Ha Hb) as [P1 P2].
  pose proof (scaled_pos a b l' Ha Hb) as [P1' P2'].
  destruct (Z.lt_trichotomy l' l) as [Hlt|[Heq|Hgt]]; [|assumption|]; exfalso.
  - pose proof (scaled_mono a b l' l Ha Hb ltac:(lia)) as M.
    assert (2 <= 2 ^ (l - l')).
    { replace (l - l') with (1 + (l - l' - 1)) by lia.
      rewrite pow2_add by lia. pose proof (pow2_gt0 (l - l' - 1) ltac:(lia)).
      simpl. lia. }
    destruct (scaled a b l) as [A B], (scaled a b l') as [A' B'].
    simpl in *.
    assert (B * (B' * 2) <= A * (B' * 2 ^ (l - l'))).
    { apply Z.mul_le_mono_nonneg; nia. }
    nia.
  - pose proof (scaled_mono a b l l' Ha Hb ltac:(lia)) as M.
    assert (2 <= 2 ^ (l' - l)).
    { replace (l' - l) with (1 + (l' - l - 1)) by lia.
      rewrite pow2_add by lia. pose proof (pow2_gt0 (l' - l - 1) ltac:(lia)).
      simpl. lia. }
    destruct (scaled a b l) as [A B], (scaled a b l') as [A' B'].
    simpl in *.
    assert (B' * (B * 2) <= A' * (B * 2 ^ (l' - l))).
    { apply Z.mul_le_mono_nonneg; nia. }
    nia.
Qed.


Lemma nearest_even_exact (q B : Z) :
  0 < B -> nearest_even (q * B) B = q.
Proof.
  intros HB. unfold nearest_even.
  rewrite Z.div_mul by lia. rewrite Z.mod_mul by lia.
  destruct (Z.compare_spec (2 * 0) B); lia.
Qed.





(** An integer below [2^53] is a number. *)
Lemma round64_integer (s : bool) (z : Z) :
  0 < z < 2 ^ 53 ->
  round64 s z 1
  = S754_finite s (Z.to_pos (z * 2 ^ (52 - Z.log2 z))) (Z.log2 z - 52).
Proof.
  intros [H0 H1].
  pose proof (Z.log2_spec z H0) as [L1 L2].
  pose proof (Z.log2_nonneg z) as L0.
  assert (L3 : Z.log2 z < 53) by (apply Z.log2_lt_pow2; lia).
  assert (Hl : floor_log2 z 1 = Z.log2 z).
  { apply floor_log2_unique; [lia | lia |].
    unfold scaled. destruct (Z.leb_spec 0 (Z.log2 z)); [|lia]. simpl.
    rewrite <- Z.add_1_r, pow2_succ in L2 by lia. lia. }
  unfold round64. destruct (Z.eqb_spec z 0); [lia|]. rewrite Hl.
  rewrite Z.max_l by lia.
  remember (52 - Z.log2 z) as k eqn:Ek.
  assert (Hk : 0 <= k) by lia.
  replace (Z.log2 z - 52) with (- k) by lia.
  assert (Hm : nearest_even (scaled z 1 (- k)).1 (scaled z 1 (- k)).2
               = z * 2 ^ k).
  { unfold scaled. destruct (Z.leb_spec 0 (- k)).
    - assert (E0 : k = 0) by lia. rewrite E0.
      change (- 0) with 0. change (2 ^ 0) with 1. cbn [fst snd].
      rewrite !Z.mul_1_r. rewrite <- (Z.mul_1_r z) at 1.
      apply nearest_even_exact. lia.
    - simpl. rewrite Z.opp_involutive.
      rewrite <- (Z.mul_1_r (z * 2 ^ k)) at 1. apply nearest_even_exact. lia. }
  destruct (scaled z 1 (- k)) as [A B]. simpl in Hm. rewrite Hm.
  assert (Hb : z * 2 ^ k < 2 ^ 53).
  { replace 53 with (Z.log2 z + 1 + k) by lia.
    rewrite pow2_add by lia. rewrite <- Z.add_1_r in L2.
    pose proof (pow2_gt0 k Hk). nia. }
  pose proof (pow2_gt0 k Hk).
  destruct (Z.eqb_spec (z * 2 ^ k) (2 ^ 53)); [lia|].
  destruct (Z.eqb_spec (z * 2 ^ k) 0); [nia|].
  destruct (Z.ltb_spec 971 (- k)); [lia | reflexivity].
Qed.

Lemma of_Z_pos (z : Z) :
  0 < z < 2 ^ 53 ->
  of_Z z = S754_finite false (Z.to_pos (z * 2 ^ (52 - Z.log2 z)))
                       (Z.log2 z - 52) /\
  0 <= 52 - Z.log2 z /\
  Z.pos (Z.to_pos (z * 2 ^ (52 - Z.log2 z))) = z * 2 ^ (52 - Z.log2 z).
Proof.
  intros H. unfold of_Z. destruct (Z.ltb_spec z 0); [lia|].
  split; [now apply round64_integer|].
  assert (Z.log2 z < 53) by (apply Z.log2_lt_pow2; lia).
  split; [lia|]. apply Z2Pos.id.
  pose proof (pow2_gt0 (52 - Z.log2 z) ltac:(lia)). nia.
Qed.


Lemma lt_of_Z (z d : Z) :
  0 < z < 2 ^ 53 -> 0 < d < 2 ^ 53 ->
  lt (of_Z z) (of_Z d) = (z <? d).
Proof.
  intros Hz Hd.
  destruct (of_Z_pos z Hz) as (-> & Kz & Pz).
  destruct (of_Z_pos d Hd) as (-> & Kd & Pd).
  remember (52 - Z.log2 z) as kz. remember (52 - Z.log2 d) as kd.
  replace (Z.log2 z - 52) with (- kz) by lia.
  replace (Z.log2 d - 52) with (- kd) by lia.
  unfold lt, signed, compare_values. rewrite Pz, Pd.
  pose proof (pow2_gt0 kz Kz). pose proof (pow2_gt0 kd Kd).
  destruct (Z.leb_spec (- kz) (- kd)).
  - replace (d * 2 ^ kd * 2 ^ (- kd - - kz)) with (d * 2 ^ kz).
    + rewrite <- Zmult_compare_compat_r by lia.
      destruct (Z.ltb_spec z d), (Z.compare_spec z d); lia || reflexivity.
    + replace kz with (kd + (- kd - - kz)) at 1 by lia.
      rewrite pow2_add by lia. ring.
  - replace (z * 2 ^ kz * 2 ^ (- kz - - kd)) with (z * 2 ^ kd).
    + rewrite <- Zmult_compare_compat_r by lia.
      destruct (Z.ltb_spec z d), (Z.compare_spec z d); lia || reflexivity.
    + replace kd with (kz + (- kz - - kd)) at 1 by lia.
      rewrite pow2_add by lia. ring.
Qed.


End NumberFacts.

Module DigitFacts.
Import JsNumber SearchFacts NumberFacts.
Local Open Scope Z_scope.

#[local] Arguments String.append !s1 s2 /.





(** *** Decimal digits *)





(** *** The text of a decimal numeral *)





End DigitFacts.

Module ShortestFacts.
Import JsNumber NumberFacts DigitFacts.
Local Open Scope Z_scope.

#[local] Arguments String.append !s1 s2 /.



Section Integer.
Variables n k m e : Z.
Hypothesis Hn : 0 < n < 2 ^ 53.
Hypothesis Hk : k = 52 - Z.log2 n.
Hypothesis Hm : m = n * 2 ^ k.
Hypothesis He : e = Z.log2 n - 52.



Variables s0 t : Z.
Hypothesis Hs0 : 0 < s0.
Hypothesis Ht : 0 <= t.
Hypothesis Hst : n = s0 * 10 ^ t.
Hypothesis Hlast : s0 mod 10 <> 0.












End Integer.




End ShortestFacts.

(** * Facts about the star counter *)

Module StarFacts.
Import JsNumber GitHubStar NumberVocabulary.
Import SearchFacts NumberFacts DigitFacts ShortestFacts.
Local Open Scope Z_scope.

#[local] Arguments String.append !s1 s2 /.

(** The operations agree with those of the standard library's binary64
    on the samples. *)
Lemma agrees_with_binary64 :
  forallb (fun x =>
    forallb (fun y =>
      same (div x y) (SFdiv 53 1024 x y)
      && Bool.eqb (lt x y) (SFltb x y)) samples) samples = true.
Proof. vm_compute. reflexivity. Qed.

Lemma range_check (P : Z -> bool) (lo n : nat) :
  forallb P (map Z.of_nat (seq lo n)) = true ->
  forall z, Z.of_nat lo <= z < Z.of_nat (lo + n) -> P z = true.
Proof.
  intros H z Hz. rewrite forallb_forall in H. apply H.
  apply in_map_iff. exists (Z.to_nat z). split; [lia|].
  apply in_seq. lia.
Qed.

Lemma en_US_small (z : Z) :
  0 <= z < 1000 -> en_US (of_Z z) = decimal z.
Proof.
  intros H. apply String.eqb_eq.
  apply (range_check (fun z => String.eqb (en_US (of_Z z)) (decimal z))
           0 1000); [vm_compute; reflexivity | lia].
Qed.


Lemma round64_not_NaN (s : bool) (a b : Z) : isNaN (round64 s a b) = false.
Proof.
  unfold round64. destruct (a =? 0); [reflexivity|].
  destruct (scaled a b _) as [A B].
  destruct (nearest_even A B =? 2 ^ 53).
  - destruct (2 ^ 52 =? 0); [reflexivity|].
    now destruct (971 <? _).
  - destruct (nearest_even A B =? 0); [reflexivity|].
    now destruct (971 <? _).
Qed.

Lemma of_Z_not_NaN (z : Z) : isNaN (of_Z z) = false.
Proof. unfold of_Z. destruct (z <? 0); apply round64_not_NaN. Qed.

Lemma lt_of_Z_nonneg (z d : Z) :
  0 <= z < 2 ^ 53 -> 0 < d < 2 ^ 53 -> lt (of_Z z) (of_Z d) = (z <? d).
Proof.
  intros Hz Hd. destruct (Z.eq_dec z 0) as [->|Hz0].
  - destruct (of_Z_pos d Hd) as (-> & _).
    destruct (Z.ltb_spec 0 d); [reflexivity | lia].
  - apply lt_of_Z; lia.
Qed.





(** The three branches of [formatStars] on a number. *)
Lemma formatStars_below (L : number -> string) (x : number) :
  isNaN x = false -> lt x (of_Z 1000) = true ->
  formatStars L (Num x) = L x.
Proof. intros H1 H2. unfold formatStars. now rewrite H1, H2. Qed.

Lemma formatStars_k (L : number -> string) (x : number) :
  isNaN x = false -> lt x (of_Z 1000) = false ->
  exists s, formatStars L (Num x) = s +:+ "k".
Proof.
  intros H1 H2. unfold formatStars. rewrite H1, H2.
  destruct (lt x (of_Z 10000)); eauto.
Qed.



Lemma formatStars_small (z : Z) :
  0 <= z < 1000 -> formatStars en_US (Num (of_Z z)) = decimal z.
Proof.
  intros H. rewrite formatStars_below.
  - now apply en_US_small.
  - apply of_Z_not_NaN.
  - rewrite lt_of_Z_nonneg by lia. destruct (Z.ltb_spec z 1000); [reflexivity | lia].
Qed.

End StarFacts.

(** * The claims about the version selector *)

Module VersionSelectorClaims.
Import JsString Regex PathVocabulary SearchFacts RegexFacts Component RewriteFacts.
Import VersionSelector.

#[local] Arguments String.append !s1 s2 /.

Lemma begins_versioned_false (x : string) :
  begins_versioned x = false ->
  starts_digit x = false /\ strip_marker x = x.
Proof.
  unfold begins_versioned, strip_marker.
  intros [H1 H2]%orb_false_elim. split; [exact H1|].
  destruct (exec marker x); [discriminate | reflexivity].
Qed.

(** C2 (amended).  For every path that matches a known root, is at the
    default version and whose first occurrence of the root is directly
    followed neither by a digit nor by a marker [-v<digits>]: selecting
    ["v1"] navigates to the path with [-v1] put after that root and
    everything else kept, and selecting ["v0"] from there navigates back
    to the path itself.  The root [r] is the one the code selects
    ([root p]), [u] is what stands before its first occurrence (no
    occurrence begins inside [u]) and [x] what follows it.
    ["/docs/foo"] goes to ["/docs-v1/foo"] and back to ["/docs/foo"]. *)
Theorem roundtrip_default_preview (p : string) (o o' : bool) :
  plain_root p = true ->
  detectVersion p = "v0" ->
  navigation (handleVersionChange "v1" (loaded p o))
    = Some (newPath p "v1") /\
  (exists u r x,
      root p = Some r /\
      search (strip_prefix r) p = Some (u, x) /\
      unmatched (strip_prefix r) u (r +:+ x) /\
      p = u +:+ r +:+ x /\
      newPath p "v1" = u +:+ r +:+ "-v1" +:+ x) /\
  navigation (handleVersionChange "v0" (loaded (newPath p "v1") o'))
    = Some p /\
  newPath (newPath p "v1") "v0" = p /\
  newPath "/docs/foo" "v1" = "/docs-v1/foo" /\
  newPath "/docs-v1/foo" "v0" = "/docs/foo".
Proof.
  unfold plain_root. intros H Hv.
  destruct (root p) as [r|] eqn:Hr; [|discriminate].
  destruct (search (strip_prefix r) p) as [[u x]|] eqn:Hs; [|discriminate].
  apply negb_true_iff, begins_versioned_false in H as [Hd Hm].
  destruct (there_and_back _ _ _ _ Hr Hs) as [H1 H2].
  rewrite Hm in H1, H2. rewrite (drop_digits_fixed _ Hd) in H2.
  destruct (search_inv _ _ _ _ Hs) as (s & Hp & Hu & Hx).
  apply strip_prefix_Some in Hx. subst s.
  assert (Hv1 : detectVersion (newPath p "v1") = "v1").
  { rewrite H1. apply detectVersion_marked.
    destruct (root_cases _ _ Hr) as [[-> _]|[-> _]]; auto. }
  repeat split.
  - rewrite handleVersionChange_navigates; [reflexivity|].
    simpl. rewrite Hv. discriminate.
  - exists u, r, x. auto.
  - rewrite handleVersionChange_navigates.
    + unfold navigation. simpl. rewrite H2. now rewrite Hp.
    + simpl. rewrite Hv1. discriminate.
  - rewrite H2. now rewrite Hp.
Qed.

Lemma roundtrip_default_preview_witness :
  plain_root "/docs/foo" = true /\
  detectVersion "/docs/foo" = "v0" /\
  newPath (newPath "/docs/foo" "v1") "v0" = "/docs/foo".
Proof.
  split; [reflexivity|]. split; [reflexivity|].
  exact (proj1 (proj2 (proj2 (proj2
    (roundtrip_default_preview "/docs/foo" true true eq_refl eq_refl))))).
Defined.

(** The round trip as the specification states it fails: a path under
    the root [/docs-v0], which the code also rewrites to [/docs-v1],
    comes back as [/docs]. *)
Lemma roundtrip_fails_on_foreign_marker :
  ~ (forall p : string,
        root p <> None -> detectVersion p = "v0" ->
        newPath (newPath p "v1") "v0" = p).
Proof.
  intros H. specialize (H "/docs-v0/foo").
  assert (E : newPath (newPath "/docs-v0/foo" "v1") "v0" = "/docs/foo")
    by reflexivity.
  rewrite E in H. discriminate H; [discriminate | reflexivity].
Qed.

(** C3 (amended).  Rewriting twice for the same target version gives
    what rewriting once gives, on every path that settles for that
    version: for ["v1"], the first occurrence of the root is not
    directly followed by a digit; for ["v0"], the text left from the
    root on after the first marker is removed carries no further
    marker; any other target leaves every path as it is. *)
Theorem newPath_idempotent (p v : string) :
  settles p v = true ->
  newPath (newPath p v) v = newPath p v.
Proof.
  unfold settles. destruct (root p) as [r|] eqn:Hr.
  2:{ intros _. now rewrite !(newPath_rootless p v Hr). }
  destruct (root_token _ _ Hr) as (w & -> & Hw).
  destruct (String.eqb_spec v "v0") as [->|Hv0].
  - destruct (search (exec (versioned (String "/" w))) p)
      as [[u x]|] eqn:Hs.
    + destruct (search (exec (versioned (String "/" w)))
                       (String "/" w +:+ x)) eqn:Hx; [discriminate|].
      intros _.
      assert (H1 : newPath p "v0" = u +:+ String "/" w +:+ x).
      { rewrite newPath_v0, Hr. now apply replace_found. }
      rewrite H1, newPath_v0.
      destruct (search_inv _ _ _ _ Hs) as (s & -> & Hu & Hm).
      rewrite exec_versioned in Hm.
      destruct (strip_prefix (String "/" w) s) as [t|] eqn:Ht;
        [|discriminate].
      apply strip_prefix_Some in Ht as ->.
      destruct (exec_marker_suffix _ _ Hm) as (a & -> & _).
      assert (Hr' : root (u +:+ String "/" w +:+ x) = Some (String "/" w))
        by exact (root_preserved u (String "/" w) a "" x Hr eq_refl).
      rewrite Hr'. apply replace_unmatched.
      apply (v0_then_v0 w Hw _ u x Hs Hx).
    + intros _.
      assert (H1 : newPath p "v0" = p).
      { rewrite newPath_v0, Hr. now apply replace_unmatched. }
      now rewrite !H1.
  - destruct (String.eqb_spec v "v1") as [->|Hv1].
    + destruct (root_found _ _ Hr) as (u & x & Hs). rewrite Hs.
      intros Hd%negb_true_iff.
      destruct (there_and_back _ _ _ _ Hr Hs) as [H1 _].
      rewrite H1, newPath_v1.
      destruct (search_inv _ _ _ _ Hs) as (s & Hp & Hu & Hx).
      apply strip_prefix_Some in Hx. subst s p.
      destruct (strip_marker_suffix x) as [a Ha].
      rewrite Ha in Hr at 1.
      rewrite (root_preserved u (String "/" w) a "-v1" _ Hr eq_refl).
      rewrite (v1_then_v1 w Hw u x _ Hu).
      now rewrite (drop_digits_fixed _ (strip_marker_no_digit _ Hd)).
    + intros _. now rewrite !newPath_other.
Qed.

Lemma newPath_idempotent_witness :
  settles "/docs-v1/foo" "v0" = true /\
  newPath (newPath "/docs-v1/foo" "v0") "v0" = newPath "/docs-v1/foo" "v0".
Proof.
  split; [reflexivity|].
  apply (newPath_idempotent "/docs-v1/foo" "v0"). reflexivity.
Defined.

(** Idempotence as the specification states it fails for both targets:
    a digit after the root is swallowed by the second rewrite to
    ["v1"], and a second marker is removed by the second rewrite to
    ["v0"]. *)
Lemma newPath_not_idempotent :
  ~ (forall p : string, newPath (newPath p "v1") "v1" = newPath p "v1") /\
  ~ (forall p : string, newPath (newPath p "v0") "v0" = newPath p "v0").
Proof.
  split; intros H.
  - specialize (H "/docs2/intro").
    assert (E1 : newPath "/docs2/intro" "v1" = "/docs-v12/intro")
      by reflexivity.
    assert (E2 : newPath "/docs-v12/intro" "v1" = "/docs-v1/intro")
      by reflexivity.
    rewrite E1, E2 in H. discriminate H.
  - specialize (H "/docs-v1/docs-v2").
    assert (E1 : newPath "/docs-v1/docs-v2" "v0" = "/docs/docs-v2")
      by reflexivity.
    assert (E2 : newPath "/docs/docs-v2" "v0" = "/docs/docs")
      by reflexivity.
    rewrite E1, E2 in H. discriminate H.
Qed.

End VersionSelectorClaims.

(** * The claims about the tag filter *)

Module DocCardListClaims.
Import DocCardList TagVocabulary.

Lemma arrayIncludes_In (l : list jsval) (t : string) :
  arrayIncludes l t = true <-> In (VStr t) l.
Proof.
  unfold arrayIncludes. rewrite existsb_exists. split.
  - intros (v & Hv & E). destruct v; try discriminate.
    apply String.eqb_eq in E as ->. exact Hv.
  - intros H. exists (VStr t). split; [exact H | apply String.eqb_refl].
Qed.

Lemma keeps_carries (t : string) (it : item) :
  keeps t it = true <-> carries t it.
Proof.
  unfold keeps, carries. split.
  - destruct (tags it) as [| | | | |l|]; try discriminate.
    intros H%arrayIncludes_In. eauto.
  - intros (l & -> & H). now apply arrayIncludes_In.
Qed.

Lemma filter_selects (t : string) (E : list item) :
  selects (carries t) E (List.filter (keeps t) E).
Proof.
  induction E as [|it E IH]; simpl; [constructor|].
  destruct (keeps t it) eqn:K.
  - apply selects_keep; [now apply keeps_carries | exact IH].
  - apply selects_drop; [|exact IH].
    intros H%keeps_carries. congruence.
Qed.

Lemma filter_sublist (f : item -> bool) (E : list item) :
  sublist (List.filter f E) E.
Proof.
  induction E as [|it E IH]; simpl; [constructor|].
  destruct (f it); now constructor.
Qed.

Lemma filteredItems_tag (E : list item) (t : string) :
  t <> "" -> filteredItems E (Some t) = List.filter (keeps t) E.
Proof.
  intros H. unfold filteredItems, truthy.
  apply String.eqb_neq in H as ->. reflexivity.
Qed.

(** C4.  For a non-empty tag [t], the visible entries are exactly the
    entries of [E] whose [tags] is an array holding the string [t]
    (compared as it is, so ["X"] is not ["x"]), in the order of [E];
    an entry without [tags] or with an empty [tags] is not among them.
    Of the entries with tags [x], [y], none and no [tags] field, the
    tag ["x"] keeps the first only. *)
Theorem filteredItems_exact (E : list item) (t : string) :
  t <> "" ->
  selects (carries t) E (filteredItems E (Some t)) /\
  sublist (filteredItems E (Some t)) E /\
  (forall it, In it (filteredItems E (Some t)) <-> In it E /\ carries t it) /\
  (forall it, In it (filteredItems E (Some t)) ->
              tags it <> VUndefined /\ tags it <> VArr []) /\
  filteredItems [tagged ["x"]; tagged ["y"]; tagged []; untagged] (Some "x")
    = [tagged ["x"]] /\
  filteredItems [tagged ["x"]] (Some "X") = [].
Proof.
  intros Ht. rewrite (filteredItems_tag E t Ht).
  split; [apply filter_selects|].
  split; [apply filter_sublist|].
  assert (Hin : forall it, In it (List.filter (keeps t) E) <->
                           In it E /\ carries t it).
  { intros it. rewrite filter_In, keeps_carries. reflexivity. }
  split; [exact Hin|].
  split; [|split; vm_compute; reflexivity].
  intros it [_ (l & Hl & Hi)]%Hin. rewrite Hl. split; [discriminate|].
  intros [= ->]. destruct Hi.
Qed.

Lemma filteredItems_exact_witness :
  "x" <> "" /\
  filteredItems [tagged ["x"]; tagged ["y"]; tagged []; untagged] (Some "x")
    = [tagged ["x"]].
Proof.
  split; [discriminate|].
  exact (proj1 (proj2 (proj2 (proj2 (proj2
    (filteredItems_exact [] "x" ltac:(discriminate))))))).
Defined.

(** C5.  Without a selected tag, be it [null] or the empty string
    that the "All Categories" card sends, the visible entries are the
    list itself, entries without tags included. *)
Theorem filteredItems_all (E : list item) :
  filteredItems E None = E /\
  filteredItems E (Some "") = E /\
  filteredItems E (handleValueChange "") = E /\
  radioValue (handleValueChange "") = "".
Proof. repeat split. Qed.

(** C8.  Computing the visible entries leaves the caller's array as it
    was, whatever the selected tag: the array still holds the same
    entries in the same order, as does every other array of the store;
    with a tag selected the result is a newly allocated array, and
    without one it is the caller's array itself. *)
Theorem filteredItems_keeps_input
    (store : gmap ref (list item)) (items : ref) (E : list item)
    (selectedTag : option string) :
  store !! items = Some E ->
  exists store' result,
    filteredItemsRef store items selectedTag = Some (store', result) /\
    store' !! items = Some E /\
    (forall r, r ∈ dom store -> store' !! r = store !! r) /\
    store' !! result = Some (filteredItems E selectedTag) /\
    (truthy selectedTag = true -> result ∉ dom store) /\
    (truthy selectedTag = false -> store' = store /\ result = items).
Proof.
  intros HE. unfold filteredItemsRef, filteredItems. rewrite HE.
  pose proof (is_fresh (dom store)) as Hf.
  assert (Hne : forall r, r ∈ dom store -> fresh (dom store) <> r)
    by (intros r Hr Er; rewrite Er in Hf; contradiction).
  destruct selectedTag as [t|]; [destruct (truthy (Some t)) eqn:T|].
  - eexists _, _. split; [reflexivity|].
    split; [|split; [|split; [|split]]].
    + rewrite lookup_insert_ne; [exact HE|].
      apply Hne, elem_of_dom. now rewrite HE.
    + intros r Hr. now rewrite lookup_insert_ne by auto.
    + apply lookup_insert_eq.
    + intros _. exact Hf.
    + discriminate.
  - eexists _, _. split; [reflexivity|]. repeat split; auto; discriminate.
  - eexists _, _. split; [reflexivity|]. repeat split; auto; discriminate.
Qed.

Lemma filteredItems_keeps_input_witness :
  exists store' result,
    filteredItemsRef {[ 1%positive := [tagged ["x"]; untagged] ]} 1%positive
                     (Some "x") = Some (store', result) /\
    store' !! 1%positive = Some [tagged ["x"]; untagged].
Proof.
  destruct (filteredItems_keeps_input
              {[ 1%positive := [tagged ["x"]; untagged] ]} 1%positive
              [tagged ["x"]; untagged] (Some "x") (lookup_singleton_eq _ _))
    as (store' & result & H1 & H2 & _).
  exists store', result. split; [exact H1 | exact H2].
Defined.

End DocCardListClaims.

(** * The claims about selecting and keyboard navigation *)

Module SelectionClaims.
Import JsString Component PathVocabulary SearchFacts RewriteFacts OptionScenario.

Lemma includes_longer (p n m : string) :
  includes p (n +:+ m) = true -> includes p n = true.
Proof.
  intros (u & x & H)%includes_true.
  destruct (search_inv _ _ _ _ H) as (s & -> & _ & Hs).
  apply strip_prefix_Some in Hs as ->.
  rewrite append_assoc. apply includes_app.
Qed.

Lemma detectVersion_rootless (p : string) :
  includes p "/examples" = false -> includes p "/docs" = false ->
  detectVersion p = "v0".
Proof.
  intros He Hd. unfold detectVersion.
  destruct (includes p "/examples-v1") eqn:E1.
  { apply (includes_longer p "/examples" "-v1") in E1. congruence. }
  destruct (includes p "/docs-v1") eqn:E2.
  { apply (includes_longer p "/docs" "-v1") in E2. congruence. }
  reflexivity.
Qed.

(** C1 (amended).  On a path that contains neither ["/examples"] nor
    ["/docs"] the detected version is ["v0"] and selecting another version
    rewrites nothing.  In the selector with both versions enabled (and in
    the native [<select>]) the target is the current path itself, and it
    is assigned to [window.location.href] all the same.  In the revision
    with the disabled preview, the only other version is refused before
    any target is computed, so no navigation is requested, by pointer or
    by keyboard; the target it would compute is the empty string. *)
Theorem unknown_root_not_rewritten (p v : string) (o : bool) :
  includes p "/examples" = false ->
  includes p "/docs" = false ->
  v <> "v0" ->
  detectVersion p = "v0" /\
  VersionSelector.newPath p v = p /\
  VersionSelector.handleVersionChange v (loaded p o)
    = (State p "v0" false, [Navigate p]) /\
  NativeSelect.handleVersionChange v (loaded p o)
    = (loaded p o, [Navigate p]) /\
  Preview.newPath p v = "" /\
  Preview.handleVersionChange Preview.options "v1" (loaded p o)
    = (loaded p o, []) /\
  (forall key,
      navigation (Preview.onKeyDown Preview.options key (loaded p o)) = None).
Proof.
  intros He Hd Hv.
  assert (Hr : root p = None) by (unfold root; now rewrite He, Hd).
  assert (H0 : detectVersion p = "v0") by now apply detectVersion_rootless.
  assert (Hn : VersionSelector.newPath p v = p) by now apply newPath_rootless.
  assert (Eb : String.eqb v "v0" = false) by now apply String.eqb_neq.
  repeat split.
  - exact H0.
  - exact Hn.
  - unfold VersionSelector.handleVersionChange, loaded. simpl.
    rewrite H0, Eb. unfold andThen, setIsOpen, emit. simpl. now rewrite Hn.
  - unfold NativeSelect.handleVersionChange, loaded. simpl.
    rewrite H0, Eb. unfold emit. simpl. now rewrite Hn.
  - unfold Preview.newPath. now rewrite Eb.
  - intros key. unfold Preview.onKeyDown, loaded. simpl. rewrite H0.
    destruct o; [|reflexivity].
    unfold Preview.handleKeyDown.
    destruct (String.eqb key Escape); [reflexivity|].
    destruct (String.eqb key ArrowDown || String.eqb key ArrowUp);
      [|reflexivity].
    unfold Preview.newValue, Preview.nextIndex. simpl.
    destruct (String.eqb key ArrowDown); reflexivity.
Qed.

Lemma unknown_root_not_rewritten_witness :
  includes "/blog/post-1" "/examples" = false /\
  includes "/blog/post-1" "/docs" = false /\
  VersionSelector.handleVersionChange "v1" (loaded "/blog/post-1" true)
    = (State "/blog/post-1" "v0" false, [Navigate "/blog/post-1"]).
Proof.
  split; [reflexivity|]. split; [reflexivity|].
  exact (proj1 (proj2 (proj2
    (unknown_root_not_rewritten "/blog/post-1" "v1" true
       eq_refl eq_refl ltac:(discriminate))))).
Defined.

(** The claim as the specification states it fails in the selector with
    both versions enabled: from ["/blog/post-1"] the switch to ["v1"]
    computes a target that is not empty and assigns it. *)
Lemma unknown_root_still_navigates :
  ~ (forall (p v : string) (o : bool),
        includes p "/examples" = false -> includes p "/docs" = false ->
        v <> detectVersion p ->
        navigation (VersionSelector.handleVersionChange v (loaded p o))
          = None).
Proof.
  intros H.
  specialize (H "/blog/post-1" "v1" true eq_refl eq_refl ltac:(discriminate)).
  assert (E : navigation (VersionSelector.handleVersionChange "v1"
                            (loaded "/blog/post-1" true))
              = Some "/blog/post-1") by reflexivity.
  rewrite E in H. discriminate H.
Qed.

(** ** Keyboard navigation *)

Lemma rem_next (a n : Z) :
  (0 <= a < n)%Z ->
  Z.rem (a + 1) n = (if (a + 1 =? n)%Z then 0 else a + 1)%Z.
Proof.
  intros H. destruct (Z.eqb_spec (a + 1) n) as [->|Hn].
  - apply Z.rem_same. lia.
  - apply Z.rem_small. lia.
Qed.

Lemma rem_previous (a n : Z) :
  (0 <= a < n)%Z ->
  Z.rem (a - 1 + n) n = (if (a =? 0)%Z then n - 1 else a - 1)%Z.
Proof.
  intros H. destruct (Z.eqb_spec a 0) as [->|Ha].
  - replace (0 - 1 + n)%Z with (n - 1)%Z by lia. apply Z.rem_small. lia.
  - rewrite Z.rem_mod_nonneg by lia.
    replace (a - 1 + n)%Z with (a - 1 + 1 * n)%Z by lia.
    rewrite Z.mod_add by lia. apply Z.mod_small. lia.
Qed.

Lemma indexOf_first (pre post : list string) (cur : string) :
  ~ In cur pre ->
  indexOf (pre ++ cur :: post) cur = Z.of_nat (length pre).
Proof.
  induction pre as [|x pre IH]; intros Hn; simpl.
  - now rewrite String.eqb_refl.
  - destruct (String.eqb_spec x cur) as [->|_].
    + exfalso. apply Hn. now left.
    + rewrite IH by (intros ?; apply Hn; now right).
      destruct (Z.ltb_spec (Z.of_nat (length pre)) 0); lia.
Qed.

Lemma at_index_nat (l : list string) (i : nat) :
  at_index l (Some (Z.of_nat i)) = l !! i.
Proof.
  unfold at_index. destruct (Z.ltb_spec (Z.of_nat i) 0); [lia|].
  now rewrite Nat2Z.id.
Qed.

Lemma at_index_In (l : list string) (i : option Z) (v : string) :
  at_index l i = Some v -> In v l.
Proof.
  unfold at_index. destruct i as [i|]; [|discriminate].
  destruct (i <? 0)%Z; [discriminate|].
  intros H%list_elem_of_lookup_2. now apply list_elem_of_In.
Qed.

Section AnyOptions.
Variable options : list Preview.VersionOption.

Lemma enabledValues_enabled (v : string) :
  In v (Preview.enabledValues options) ->
  exists opt, In opt options /\ Preview.disabled opt = false /\
              Preview.value opt = v.
Proof.
  unfold Preview.enabledValues, Preview.enabledOptions.
  intros (opt & Hv & [Ho Hd]%filter_In)%in_map_iff.
  exists opt. repeat split; auto. now apply negb_true_iff.
Qed.

Lemma findOption_unique (opt : Preview.VersionOption) :
  NoDup (map Preview.value options) -> In opt options ->
  Preview.findOption options (Preview.value opt) = Some opt.
Proof using Type.
  unfold Preview.findOption.
  induction options as [|a l IH]; intros Hnd Hin; [destruct Hin|].
  apply NoDup_cons in Hnd as [Ha Hl]. simpl.
  destruct a as [va la da]. simpl in *.
  destruct Hin as [<-|Hin].
  - simpl. now rewrite String.eqb_refl.
  - destruct (String.eqb_spec va (Preview.value opt)) as [->|_].
    + exfalso. apply Ha. apply list_elem_of_In, in_map. exact Hin.
    + now apply IH.
Qed.

Lemma newValue_enabled (key : string) (st : state) (v : string) :
  Preview.newValue options key st = Some v ->
  exists opt, In opt options /\ Preview.disabled opt = false /\
              Preview.value opt = v.
Proof.
  intros H%at_index_In. now apply enabledValues_enabled.
Qed.

Lemma newValue_next (st : state) (pre post : list string) :
  Preview.enabledValues options = pre ++ currentVersion st :: post ->
  ~ In (currentVersion st) pre ->
  Preview.newValue options ArrowDown st
    = head (post ++ pre ++ [currentVersion st]).
Proof using Type.
  intros He Hn. unfold Preview.newValue, Preview.nextIndex. rewrite He.
  rewrite indexOf_first by assumption.
  change (String.eqb ArrowDown ArrowDown) with true. cbv iota.
  set (n := Z.of_nat (length (pre ++ currentVersion st :: post))).
  assert (En : n = (Z.of_nat (length pre) + 1 + Z.of_nat (length post))%Z)
    by (subst n; rewrite length_app; simpl; lia).
  unfold js_rem. destruct (Z.eqb_spec n 0); [lia|].
  rewrite rem_next by lia.
  destruct (Z.eqb_spec (Z.of_nat (length pre) + 1) n) as [E|E].
  - destruct post as [|d post]; [|simpl in En; lia].
    change 0%Z with (Z.of_nat 0). rewrite at_index_nat.
    simpl. now rewrite head_lookup.
  - destruct post as [|d post]; [simpl in En; lia|].
    replace (Z.of_nat (length pre) + 1)%Z with (Z.of_nat (S (length pre)))
      by lia.
    rewrite at_index_nat. simpl.
    change (pre ++ currentVersion st :: d :: post)
      with (pre ++ [currentVersion st] ++ d :: post).
    rewrite app_assoc.
    apply list_lookup_middle. rewrite length_app. simpl. lia.
Qed.

Lemma newValue_previous (st : state) (pre post : list string) :
  Preview.enabledValues options = pre ++ currentVersion st :: post ->
  ~ In (currentVersion st) pre ->
  Preview.newValue options ArrowUp st
    = last (currentVersion st :: post ++ pre).
Proof using Type.
  intros He Hn. unfold Preview.newValue, Preview.nextIndex. rewrite He.
  rewrite indexOf_first by assumption.
  change (String.eqb ArrowUp ArrowDown) with false. cbv iota.
  set (n := Z.of_nat (length (pre ++ currentVersion st :: post))).
  assert (En : n = (Z.of_nat (length pre) + 1 + Z.of_nat (length post))%Z)
    by (subst n; rewrite length_app; simpl; lia).
  unfold js_rem. destruct (Z.eqb_spec n 0); [lia|].
  rewrite rem_previous by lia.
  destruct pre as [|a0 pre0] using rev_ind; [|clear IHpre0].
  - cbn [length app Z.of_nat Z.eqb] in *. rewrite app_nil_r.
    replace (n - 1)%Z with (Z.of_nat (length post)) by lia.
    change (Z.of_nat 0 =? 0)%Z with true. cbv iota.
    rewrite at_index_nat. now rewrite last_lookup.
  - rewrite length_app in *. simpl length in *.
    destruct (Z.eqb_spec (Z.of_nat (length pre0 + 1)) 0); [lia|].
    replace (Z.of_nat (length pre0 + 1) - 1)%Z with (Z.of_nat (length pre0))
      by lia.
    rewrite at_index_nat.
    rewrite app_comm_cons, app_assoc, last_snoc.
    rewrite <- app_assoc. now apply list_lookup_middle.
Qed.

(** An arrow key does what selecting the option it lands on does. *)
Lemma arrow_delegates (key : string) (st : state) (v : string) :
  NoDup (map Preview.value options) ->
  key = ArrowDown \/ key = ArrowUp ->
  Preview.newValue options key st = Some v ->
  Preview.handleKeyDown options key st
    = (emit PreventDefault ;; Preview.handleVersionChange options v) st.
Proof using Type.
  intros Hnd Hk Hv.
  destruct (newValue_enabled _ _ _ Hv) as (opt & Hin & Hd & <-).
  unfold Preview.handleKeyDown, Preview.handleVersionChange.
  rewrite (findOption_unique opt Hnd Hin), Hv.
  destruct opt as [vo lo d]; simpl in Hd; subst d. cbn [Preview.value].
  assert (Hkey : String.eqb key Escape = false
                 /\ String.eqb key ArrowDown || String.eqb key ArrowUp = true)
    by (destruct Hk as [-> | ->]; split; reflexivity).
  destruct Hkey as [-> ->].
  unfold andThen, emit, strict_eq, Preview.newPath. cbn [fst snd].
  destruct (String.eqb vo (currentVersion st)); [reflexivity|].
  destruct (String.eqb vo "v0"); reflexivity.
Qed.

Lemma enabledValues_NoDup :
  NoDup (map Preview.value options) -> NoDup (Preview.enabledValues options).
Proof using Type.
  unfold Preview.enabledValues, Preview.enabledOptions.
  induction options as [|a l IH]; simpl; [trivial|].
  intros [Ha Hl]%NoDup_cons.
  destruct (negb (Preview.disabled a)); simpl; [|auto].
  apply NoDup_cons. split; [|auto].
  intros (opt & Hv & [Ho _]%filter_In)%list_elem_of_In%in_map_iff.
  apply Ha. rewrite <- Hv. now apply list_elem_of_In, in_map.
Qed.

Lemma onKeyDown_keeps_version (key : string) (st : state) :
  currentVersion (Preview.onKeyDown options key st).1 = currentVersion st.
Proof using Type.
  unfold Preview.onKeyDown, Preview.handleKeyDown.
  destruct (isOpen st); [|reflexivity].
  destruct (String.eqb key Escape); [reflexivity|].
  destruct (String.eqb key ArrowDown || String.eqb key ArrowUp);
    [|reflexivity].
  unfold andThen, emit. cbn [fst snd].
  destruct (strict_eq _ _); reflexivity.
Qed.

End AnyOptions.

(** C6.  With the menu open and the current version among the enabled
    options (values being distinct), [ArrowDown] lands on the enabled
    option after the current one and [ArrowUp] on the one before it, both
    wrapping around; what an arrow key lands on is always an enabled
    option; the handler then does what selecting that option does;
    [Escape] closes the menu and focuses the trigger without navigating.
    With the options of the source, the preview revision always lands on
    ["v0"], and the revision with both versions enabled goes from ["v0"]
    to ["v1"] and from ["v1"] to ["v0"] with either arrow. *)
Theorem keyboard_cycles_enabled
    (options : list Preview.VersionOption) (st : state)
    (pre post : list string) :
  NoDup (map Preview.value options) ->
  isOpen st = true ->
  Preview.enabledValues options = pre ++ currentVersion st :: post ->
  Preview.newValue options ArrowDown st
    = head (post ++ pre ++ [currentVersion st]) /\
  Preview.newValue options ArrowUp st
    = last (currentVersion st :: post ++ pre) /\
  (forall key v,
      Preview.newValue options key st = Some v ->
      exists opt, In opt options /\ Preview.disabled opt = false /\
                  Preview.value opt = v) /\
  (forall key v,
      key = ArrowDown \/ key = ArrowUp ->
      Preview.newValue options key st = Some v ->
      Preview.onKeyDown options key st
        = (emit PreventDefault ;; Preview.handleVersionChange options v) st) /\
  Preview.onKeyDown options Escape st
    = (State (pathname st) (currentVersion st) false, [FocusTrigger]) /\
  (forall key cur p,
      key = ArrowDown \/ key = ArrowUp ->
      Preview.newValue Preview.options key (State p cur true) = Some "v0") /\
  (forall key p,
      key = ArrowDown \/ key = ArrowUp ->
      VersionSelector.onKeyDown key (State p "v0" true)
        = (emit PreventDefault ;; VersionSelector.handleVersionChange "v1")
            (State p "v0" true) /\
      VersionSelector.onKeyDown key (State p "v1" true)
        = (emit PreventDefault ;; VersionSelector.handleVersionChange "v0")
            (State p "v1" true)) /\
  (forall p cur,
      VersionSelector.onKeyDown Escape (State p cur true)
        = (State p cur false, [FocusTrigger])).
Proof.
  intros Hnd Ho He.
  assert (Hn : ~ In (currentVersion st) pre).
  { pose proof (enabledValues_NoDup options Hnd) as H. rewrite He in H.
    apply NoDup_ListNoDup, List.NoDup_remove_2 in H.
    intros Hin. apply H, in_or_app. now left. }
  split; [now apply newValue_next|].
  split; [now apply newValue_previous|].
  split; [intros key v; apply newValue_enabled|].
  split.
  { intros key v Hk Hv. unfold Preview.onKeyDown. rewrite Ho.
    now apply arrow_delegates. }
  split.
  { unfold Preview.onKeyDown. rewrite Ho. reflexivity. }
  split.
  { intros key cur p Hk. unfold Preview.newValue.
    change (Preview.enabledValues Preview.options) with ["v0"].
    cbn [indexOf currentVersion].
    destruct (String.eqb "v0" cur); destruct Hk as [-> | ->]; reflexivity. }
  split.
  { intros key p [-> | ->]; split; reflexivity. }
  reflexivity.
Qed.

Lemma keyboard_cycles_enabled_witness :
  Preview.newValue abc ArrowDown (State "/docs" "A" true) = Some "C" /\
  Preview.newValue abc ArrowDown (State "/docs" "C" true) = Some "A" /\
  Preview.newValue abc ArrowUp (State "/docs" "A" true) = Some "C".
Proof.
  assert (Hnd : NoDup (map Preview.value abc)).
  { apply NoDup_ListNoDup. repeat constructor; simpl; intuition discriminate. }
  split; [|split].
  - exact (proj1 (keyboard_cycles_enabled abc (State "/docs" "A" true)
                    [] ["C"] Hnd eq_refl eq_refl)).
  - exact (proj1 (keyboard_cycles_enabled abc (State "/docs" "C" true)
                    ["A"] [] Hnd eq_refl eq_refl)).
  - exact (proj1 (proj2 (keyboard_cycles_enabled abc (State "/docs" "A" true)
                           [] ["C"] Hnd eq_refl eq_refl))).
Defined.

(** C7.  A disabled option cannot be selected, in any state of the
    component: clicking it, or calling [handleVersionChange] with its
    value, leaves the state as it is and requests nothing; no arrow key
    lands on it; and the keyboard handler never changes the current
    version. *)
Theorem disabled_option_ignored
    (options : list Preview.VersionOption) (opt : Preview.VersionOption)
    (st : state) :
  NoDup (map Preview.value options) ->
  In opt options ->
  Preview.disabled opt = true ->
  Preview.onClick options opt st = (st, []) /\
  Preview.handleVersionChange options (Preview.value opt) st = (st, []) /\
  (forall key,
      Preview.newValue options key st <> Some (Preview.value opt)) /\
  (forall key,
      currentVersion (Preview.onKeyDown options key st).1
        = currentVersion st).
Proof.
  intros Hnd Hin Hd. split; [|split; [|split]].
  - unfold Preview.onClick. now rewrite Hd.
  - unfold Preview.handleVersionChange.
    rewrite (findOption_unique options opt Hnd Hin).
    destruct opt as [v l d]. simpl in Hd. now subst d.
  - intros key Hv.
    destruct (newValue_enabled _ _ _ _ Hv) as (opt' & Hin' & Hd' & Hv').
    pose proof (findOption_unique options opt Hnd Hin) as F.
    rewrite <- Hv', (findOption_unique options opt' Hnd Hin') in F.
    injection F as ->. congruence.
  - intros key. apply onKeyDown_keeps_version.
Qed.

Lemma disabled_option_ignored_witness :
  Preview.handleVersionChange Preview.options "v1"
    (loaded "/docs/foo" true) = (loaded "/docs/foo" true, []).
Proof.
  assert (Hnd : NoDup (map Preview.value Preview.options)).
  { apply NoDup_ListNoDup. repeat constructor; simpl; intuition discriminate. }
  exact (proj1 (proj2 (disabled_option_ignored Preview.options
                         (Preview.Option_ "v1" "v1-preview" true)
                         (loaded "/docs/foo" true) Hnd
                         (or_intror (or_introl eq_refl)) eq_refl))).
Defined.

End SelectionClaims.

(** * The claims about the star counter *)

Module GitHubStarClaims.
Import JsNumber GitHubStar NumberVocabulary StarFacts.
Local Open Scope Z_scope.

(** C9.  When awaiting the request or its JSON body throws, [fetchStars]
    logs the error and completes normally; loading is over, the count is
    still [null], and the counter shows ["0"], in every locale. *)
Theorem fetch_failure_shows_zero (toLocaleString : number -> string)
    (error : string) (o : outcome) :
  o = FetchRejects error \/ o = JsonRejects error ->
  fetchStars o (initial, [])
    = (Normal,
       (State Null false, [("Error fetching GitHub stars:", error)])) /\
  shown toLocaleString (fetchStars o (initial, [])).2.1 = Some "0" /\
  (forall st log,
      (fetchStars o (st, log)).1 = Normal /\
      stars (fetchStars o (st, log)).2.1 = stars st /\
      loading (fetchStars o (st, log)).2.1 = false).
Proof.
  intros [-> | ->]; repeat split.
Qed.

Lemma fetch_failure_shows_zero_witness :
  shown en_US (fetchStars (FetchRejects "TypeError: Failed to fetch")
                          (initial, [])).2.1 = Some "0".
Proof.
  exact (proj1 (proj2 (fetch_failure_shows_zero en_US
                         "TypeError: Failed to fetch"
                         (FetchRejects "TypeError: Failed to fetch")
                         (or_introl eq_refl)))).
Defined.




End GitHubStarClaims.

(** * Further properties of the version selector *)

Module SelectorProperties.
Import JsString Regex PathVocabulary MoreVocabulary SearchFacts RegexFacts.
Import Component RewriteFacts Menu.

#[local] Arguments String.append !s1 s2 /.

Lemma drop_digits_split (t : string) :
  exists ds, t = ds +:+ drop_digits t /\ all_digits ds = true /\
             (starts_digit t = true -> ds <> "").
Proof.
  induction t as [|c t (ds & Ht & Hd & _)]; simpl.
  - exists "". repeat split. discriminate.
  - destruct (is_digit c) eqn:Ec.
    + exists (String c ds). simpl. rewrite Ec, Hd, <- Ht.
      repeat split. discriminate.
    + exists "". repeat split. discriminate.
Qed.

Lemma exec_marker_digits (x y : string) :
  exec marker x = Some y ->
  exists ds, x = "-v" +:+ ds +:+ y /\ ds <> "" /\ all_digits ds = true /\
             starts_digit y = false.
Proof.
  rewrite exec_marker.
  destruct (strip_prefix "-v" x) as [t|] eqn:E; [|discriminate].
  apply strip_prefix_Some in E as ->. rewrite exec_digits1.
  destruct (starts_digit t) eqn:Hd; [|discriminate]. intros [= <-].
  destruct (drop_digits_split t) as (ds & Ht & Hall & Hne).
  exists ds. rewrite <- Ht. repeat split; auto.
  apply drop_digits_no_digit.
Qed.

Lemma root_of_includes (p : string) :
  includes p "/examples" = true \/ includes p "/docs" = true ->
  exists r, root p = Some r.
Proof.
  unfold root. intros [-> | H]; [eauto|].
  destruct (includes p "/examples"); [eauto|]. rewrite H. eauto.
Qed.

(** X1.  On a path that contains ["/examples"] or ["/docs"], the switch
    to ["v1"] takes effect: the target is detected as ["v1"], and
    selecting ["v1"] again on the page it loads only closes the menu. *)
Theorem preview_switch_takes_effect (p : string) (o : bool) :
  includes p "/examples" = true \/ includes p "/docs" = true ->
  detectVersion (VersionSelector.newPath p "v1") = "v1" /\
  VersionSelector.handleVersionChange "v1"
      (loaded (VersionSelector.newPath p "v1") o)
    = (State (VersionSelector.newPath p "v1") "v1" false, []).
Proof.
  intros (r & Hr)%root_of_includes.
  destruct (root_found _ _ Hr) as (u & x & Hs).
  destruct (there_and_back _ _ _ _ Hr Hs) as [H1 _].
  assert (Hv : detectVersion (VersionSelector.newPath p "v1") = "v1").
  { rewrite H1. apply detectVersion_marked.
    destruct (root_cases _ _ Hr) as [[-> _]|[-> _]]; auto. }
  split; [exact Hv|].
  unfold VersionSelector.handleVersionChange, loaded. simpl.
  rewrite Hv. reflexivity.
Qed.

Lemma preview_switch_takes_effect_witness :
  detectVersion (VersionSelector.newPath "/examples/image_search" "v1") = "v1".
Proof.
  exact (proj1 (preview_switch_takes_effect "/examples/image_search" true
                  (or_introl eq_refl))).
Defined.

(** X2.  The switch to ["v0"] either leaves the path as it is or deletes
    one marker [-v<digits>], the first that directly follows the root the
    code selects, with all of its digits, and nothing else. *)
Theorem default_switch_deletes_one_marker (p : string) :
  VersionSelector.newPath p "v0" = p \/
  exists u r ds x,
    (r = "/examples" \/ r = "/docs") /\
    p = u +:+ r +:+ "-v" +:+ ds +:+ x /\
    ds <> "" /\ all_digits ds = true /\ starts_digit x = false /\
    unmatched (exec (versioned r)) u (r +:+ "-v" +:+ ds +:+ x) /\
    VersionSelector.newPath p "v0" = u +:+ r +:+ x.
Proof.
  rewrite newPath_v0. destruct (root p) as [r|] eqn:Hr; [|now left].
  destruct (search (exec (versioned r)) p) as [[u x]|] eqn:Hs.
  - right. rewrite (replace_found _ _ _ _ _ Hs).
    destruct (search_inv _ _ _ _ Hs) as (s & -> & Hu & Hm).
    rewrite exec_versioned in Hm.
    destruct (strip_prefix r s) as [t|] eqn:Ht; [|discriminate].
    apply strip_prefix_Some in Ht as ->.
    destruct (exec_marker_digits _ _ Hm) as (ds & -> & Hne & Hall & Hx).
    exists u, r, ds, x. repeat split; auto.
    destruct (root_cases _ _ Hr) as [[-> _]|[-> _]]; auto.
  - left. now apply replace_unmatched.
Qed.

Lemma marker_found (r p : string) :
  includes p (r +:+ "-v1") = true ->
  exists u x, search (exec (versioned r)) p = Some (u, x).
Proof.
  intros (u & x & H)%includes_true.
  destruct (search_inv _ _ _ _ H) as (s & -> & _ & Hs).
  apply strip_prefix_Some in Hs as ->.
  destruct (search (exec (versioned r)) (u +:+ (r +:+ "-v1") +:+ x))
    as [[u' x']|] eqn:E; [eauto|].
  exfalso. eapply (search_exists (exec (versioned r)) u); [|exact E].
  rewrite append_assoc, exec_versioned, strip_prefix_app.
  apply exec_marker_v1.
Qed.

(** X3.  From a page detected as ["v1"], the switch to ["v0"] gives a
    strictly shorter path when the path contains ["/examples-v1"] or does
    not contain ["/examples"].  A path that contains ["/examples"] with
    no marker after it is left unchanged, so that a page such as
    ["/docs-v1/examples/foo"] stays at ["v1"]. *)
Theorem default_switch_from_preview (p : string) :
  detectVersion p = "v1" ->
  includes p "/examples-v1" = true \/ includes p "/examples" = false ->
  String.length (VersionSelector.newPath p "v0") < String.length p /\
  (forall q,
      includes q "/examples" = true ->
      search (exec (versioned "/examples")) q = None ->
      VersionSelector.newPath q "v0" = q) /\
  detectVersion (VersionSelector.newPath "/docs-v1/examples/foo" "v0") = "v1".
Proof.
  intros Hv Hc. split; [|split; [|reflexivity]].
  - rewrite newPath_v0.
    assert (H : exists r, root p = Some r /\ includes p (r +:+ "-v1") = true).
    { unfold detectVersion in Hv. unfold root.
      destruct Hc as [He | He].
      - rewrite (SelectionClaims.includes_longer p "/examples" "-v1" He). eauto.
      - rewrite He. destruct (includes p "/examples-v1") eqn:E1.
        { apply (SelectionClaims.includes_longer p "/examples" "-v1") in E1. congruence. }
        destruct (includes p "/docs-v1") eqn:E2; [|discriminate].
        rewrite (SelectionClaims.includes_longer p "/docs" "-v1" E2). eauto. }
    destruct H as (r & -> & Hi).
    destruct (marker_found _ _ Hi) as (u & x & Hs).
    exact (replace_versioned_shorter _ _ _ _ Hs).
  - intros q Hq Hn. rewrite newPath_v0. unfold root. rewrite Hq.
    now apply replace_unmatched.
Qed.

Lemma default_switch_from_preview_witness :
  String.length (VersionSelector.newPath "/docs-v1/getting_started" "v0")
  < String.length "/docs-v1/getting_started".
Proof.
  exact (proj1 (default_switch_from_preview "/docs-v1/getting_started"
                  eq_refl (or_intror eq_refl))).
Defined.

(** ** Series of interactions *)

Lemma run_cons (step : event -> action) (e : event) (es : list event)
    (st : state) :
  run step (e :: es) st =
  ((run step es (step e st).1).1, (step e st).2 ++ (run step es (step e st).1).2).
Proof.
  simpl. unfold andThen. destruct (step e st) as [st1 e1]. simpl.
  destruct (run step es st1) as [st2 e2]. reflexivity.
Qed.

Lemma handleVersionChange_spec (v : string) (st : state) :
  pathname (VersionSelector.handleVersionChange v st).1 = pathname st /\
  currentVersion (VersionSelector.handleVersionChange v st).1
    = currentVersion st /\
  isOpen (VersionSelector.handleVersionChange v st).1 = false /\
  forall h, requested h (VersionSelector.handleVersionChange v st) ->
            v <> currentVersion st /\
            h = VersionSelector.newPath (pathname st) v.
Proof.
  unfold VersionSelector.handleVersionChange, requested.
  destruct (String.eqb_spec v (currentVersion st)) as [E|E]; simpl.
  - do 3 (split; [reflexivity|]). intros h [].
  - do 3 (split; [reflexivity|]). intros h [[= <-]|[]]. auto.
Qed.

Lemma arrow_key (key : string) :
  String.eqb key ArrowDown || String.eqb key ArrowUp = true ->
  key = ArrowDown \/ key = ArrowUp.
Proof.
  intros [H|H]%orb_true_iff; apply String.eqb_eq in H; auto.
Qed.

Lemma arrow_lands (key cur : string) :
  key = ArrowDown \/ key = ArrowUp ->
  exists v,
    at_index VersionSelector.options
      (VersionSelector.nextIndex key (indexOf VersionSelector.options cur)
         (Z.of_nat (length VersionSelector.options))) = Some v /\
    In v VersionSelector.options.
Proof.
  intros Hk. unfold VersionSelector.options. cbn [indexOf].
  destruct (String.eqb "v0" cur); [|destruct (String.eqb "v1" cur)];
    destruct Hk as [-> | ->]; cbv; eauto.
Qed.

Lemma step_spec (e : event) (st : state) :
  pathname (step e st).1 = pathname st /\
  currentVersion (step e st).1 = currentVersion st /\
  forall h, requested h (step e st) ->
            isOpen st = true /\ isOpen (step e st).1 = false /\
            exists v, In v VersionSelector.options /\
                      v <> currentVersion st /\
                      h = VersionSelector.newPath (pathname st) v.
Proof.
  assert (Q : forall st' : state,
             pathname st' = pathname st ->
             currentVersion st' = currentVersion st ->
             pathname (st', @nil effect).1 = pathname st /\
             currentVersion (st', @nil effect).1 = currentVersion st /\
             forall h, requested h (st', @nil effect) ->
               isOpen st = true /\ isOpen (st', @nil effect).1 = false /\
               exists v, In v VersionSelector.options /\
                         v <> currentVersion st /\
                         h = VersionSelector.newPath (pathname st) v).
  { intros st' H1 H2. split; [exact H1|]. split; [exact H2|]. intros h []. }
  destruct e as [|inside|key|n]; cbn [step].
  - now apply Q.
  - unfold onMouseDown, handleClickOutside.
    destruct (isOpen st), inside; now apply Q.
  - unfold VersionSelector.onKeyDown, VersionSelector.handleKeyDown.
    destruct (isOpen st) eqn:Ho; [|now apply Q].
    destruct (String.eqb key Escape).
    { do 2 (split; [reflexivity|]). intros h [[=]|[]]. }
    destruct (String.eqb key ArrowDown || String.eqb key ArrowUp) eqn:Hk;
      [|now apply Q].
    destruct (arrow_lands key (currentVersion st) (arrow_key _ Hk))
      as (v & -> & Hin).
    unfold andThen, emit, strict_eq, requested. cbn [fst snd].
    destruct (String.eqb_spec v (currentVersion st)) as [E|E]; simpl.
    + do 2 (split; [reflexivity|]). intros h [[=]|[]].
    + do 2 (split; [reflexivity|]). intros h [[=]|[[= <-]|[]]].
      do 2 (split; [reflexivity|]).
      exists v. split; [exact Hin|]. split; [exact E | reflexivity].
  - destruct (isOpen st) eqn:Ho; [|now apply Q].
    destruct (VersionSelector.options !! n) as [v|] eqn:En; [|now apply Q].
    unfold VersionSelector.onClick.
    destruct (handleVersionChange_spec v st) as (H1 & H2 & H3 & H4).
    split; [exact H1|]. split; [exact H2|]. intros h H.
    split; [reflexivity|]. split; [exact H3|].
    exists v. destruct (H4 h H) as [Hne Hh]. repeat split; auto.
    apply list_elem_of_In. eapply list_elem_of_lookup_2. exact En.
Qed.

(** X4.  Whatever series of trigger clicks, mouse presses, keys and option
    clicks the selector with both versions enabled receives, its path and
    current version stay as they were, and every address it requests is
    the rewriting of that path for an option other than the current
    version.  A single event requests an address only from an open menu,
    which it closes. *)
Theorem interactions_only_switch (es : list event) (st : state) :
  pathname (run step es st).1 = pathname st /\
  currentVersion (run step es st).1 = currentVersion st /\
  (forall h, requested h (run step es st) ->
             exists v, In v VersionSelector.options /\
                       v <> currentVersion st /\
                       h = VersionSelector.newPath (pathname st) v) /\
  (forall e h, requested h (step e st) ->
               isOpen st = true /\ isOpen (step e st).1 = false).
Proof.
  split; [|split; [|split]].
  4:{ intros e h H. destruct (step_spec e st) as (_ & _ & Hs).
      destruct (Hs h H) as (? & ? & _). auto. }
  all: revert st; induction es as [|e es IH]; intros st;
    [unfold requested; simpl; tauto|];
    rewrite run_cons; cbn [fst snd];
    destruct (step_spec e st) as (Hp & Hc & Hn).
  - now rewrite IH.
  - now rewrite IH.
  - unfold requested. cbn [snd]. intros h [H|H]%in_app_or.
    + destruct (Hn h H) as (_ & _ & Hv). exact Hv.
    + destruct (IH _ h H) as (v & Hin & Hne & Hh).
      exists v. rewrite <- Hp, <- Hc. auto.
Qed.

Lemma interactions_only_switch_witness :
  exists v, In v VersionSelector.options /\ v <> "v0" /\
            "/docs-v1/foo" = VersionSelector.newPath "/docs/foo" v.
Proof.
  exact (proj1 (proj2 (proj2
    (interactions_only_switch [TriggerClick; OptionClick 1]
       (loaded "/docs/foo" false))))
    "/docs-v1/foo" (or_introl eq_refl)).
Defined.

Lemma preview_lands (key : string) (st : state) :
  key = ArrowDown \/ key = ArrowUp ->
  Preview.newValue Preview.options key st = Some "v0".
Proof.
  intros Hk. unfold Preview.newValue.
  change (Preview.enabledValues Preview.options) with ["v0"].
  cbn [indexOf].
  destruct (String.eqb "v0" (currentVersion st));
    destruct Hk as [-> | ->]; reflexivity.
Qed.

Lemma previewStep_spec (e : event) (st : state) :
  pathname (previewStep e st).1 = pathname st /\
  currentVersion (previewStep e st).1 = currentVersion st /\
  forall h, requested h (previewStep e st) ->
            isOpen st = true /\ isOpen (previewStep e st).1 = false /\
            currentVersion st <> "v0" /\
            h = Preview.newPath (pathname st) "v0".
Proof.
  assert (Q : forall st' : state,
             pathname st' = pathname st ->
             currentVersion st' = currentVersion st ->
             pathname (st', @nil effect).1 = pathname st /\
             currentVersion (st', @nil effect).1 = currentVersion st /\
             forall h, requested h (st', @nil effect) ->
               isOpen st = true /\ isOpen (st', @nil effect).1 = false /\
               currentVersion st <> "v0" /\
               h = Preview.newPath (pathname st) "v0").
  { intros st' H1 H2. split; [exact H1|]. split; [exact H2|]. intros h []. }
  destruct e as [|inside|key|n]; cbn [previewStep].
  - now apply Q.
  - unfold onMouseDown, handleClickOutside.
    destruct (isOpen st), inside; now apply Q.
  - unfold Preview.onKeyDown, Preview.handleKeyDown.
    destruct (isOpen st) eqn:Ho; [|now apply Q].
    destruct (String.eqb key Escape).
    { do 2 (split; [reflexivity|]). intros h [[=]|[]]. }
    destruct (String.eqb key ArrowDown || String.eqb key ArrowUp) eqn:Hk;
      [|now apply Q].
    rewrite (preview_lands key st (arrow_key _ Hk)).
    unfold andThen, emit, strict_eq, requested. cbn [fst snd].
    rewrite String.eqb_refl.
    destruct (String.eqb_spec "v0" (currentVersion st)) as [E|E]; simpl.
    + do 2 (split; [reflexivity|]). intros h [[=]|[]].
    + do 2 (split; [reflexivity|]). intros h [[=]|[[= <-]|[]]].
      repeat split; auto.
  - destruct (isOpen st) eqn:Ho; [|now apply Q].
    destruct n as [|[|n]]; cbn [lookup list_lookup Preview.options];
      [| now apply Q ..].
    unfold Preview.onClick, Preview.handleVersionChange, requested.
    cbn [Preview.disabled Preview.value negb Preview.findOption].
    simpl List.find.
    destruct (String.eqb_spec "v0" (currentVersion st)) as [E|E]; simpl.
    + do 2 (split; [reflexivity|]). intros h [].
    + do 2 (split; [reflexivity|]). intros h [[= <-]|[]].
      repeat split; auto.
Qed.

(** X5.  In the revision with the disabled preview, whatever series of
    events the component receives on a loaded page, its path and current
    version stay as they were, and it requests an address only on a page
    detected as ["v1"]; that address is then ["/examples"] or ["/docs"],
    a root the path contains, and never the empty string. *)
Theorem preview_interactions_only_leave (es : list event) (p : string)
    (o : bool) :
  pathname (run previewStep es (loaded p o)).1 = p /\
  currentVersion (run previewStep es (loaded p o)).1 = detectVersion p /\
  (forall h, requested h (run previewStep es (loaded p o)) ->
             detectVersion p = "v1" /\
             (h = "/examples" \/ h = "/docs") /\
             includes p h = true).
Proof.
  assert (G : forall es st,
             pathname (run previewStep es st).1 = pathname st /\
             currentVersion (run previewStep es st).1 = currentVersion st /\
             forall h, requested h (run previewStep es st) ->
                       currentVersion st <> "v0" /\
                       h = Preview.newPath (pathname st) "v0").
  { clear. induction es as [|e es IH]; intros st;
      [unfold requested; simpl; tauto|].
    rewrite run_cons; cbn [fst snd].
    destruct (previewStep_spec e st) as (Hp & Hc & Hn).
    destruct (IH (previewStep e st).1) as (IHp & IHc & IHn).
    split; [congruence|]. split; [congruence|].
    unfold requested. cbn [snd]. intros h [H|H]%in_app_or.
    - destruct (Hn h H) as (_ & _ & ? & ?). auto.
    - destruct (IHn h H) as [? ?]. rewrite <- Hp, <- Hc. auto. }
  destruct (G es (loaded p o)) as (Hp & Hc & Hn).
  split; [exact Hp|]. split; [exact Hc|].
  intros h H. destruct (Hn h H) as [Hne ->]. simpl in Hne.
  assert (Hv : detectVersion p = "v1").
  { unfold detectVersion in *.
    destruct (includes p "/examples-v1" || includes p "/docs-v1");
      [reflexivity | congruence]. }
  split; [exact Hv|].
  unfold detectVersion in Hv. unfold Preview.newPath. simpl.
  destruct (includes p "/examples") eqn:He; [auto|].
  destruct (includes p "/examples-v1") eqn:E1.
  { apply (SelectionClaims.includes_longer p "/examples" "-v1") in E1.
    congruence. }
  destruct (includes p "/docs-v1") eqn:E2; [|discriminate].
  apply (SelectionClaims.includes_longer p "/docs" "-v1") in E2.
  rewrite E2. auto.
Qed.

Lemma preview_interactions_only_leave_witness :
  detectVersion "/docs-v1/foo" = "v1" /\
  ("/docs" = "/examples" \/ "/docs" = "/docs") /\
  includes "/docs-v1/foo" "/docs" = true.
Proof.
  exact (proj2 (proj2
    (preview_interactions_only_leave [TriggerClick; KeyDown ArrowDown]
       "/docs-v1/foo" false))
    "/docs" (or_intror (or_introl eq_refl))).
Defined.

End SelectorProperties.

(** * Further properties of the tag cards and the document cards *)

Module CardProperties.
Import JsString MoreVocabulary SearchFacts DocCardList TagVocabulary.

#[local] Arguments String.append !s1 s2 /.

(** X6.  The radio value and the selected tag convert into each other
    without loss: the value a card sends is the value the root is given
    back, the state is never the empty string, a state other than the
    empty string survives the round trip, and the list shown after a
    card sent [value] is the whole list for [""] and the entries
    carrying [value] otherwise. *)
Theorem selection_round_trip (value : string) (selectedTag : option string)
    (E : list item) :
  radioValue (handleValueChange value) = value /\
  handleValueChange value <> Some "" /\
  (selectedTag <> Some "" ->
   handleValueChange (radioValue selectedTag) = selectedTag) /\
  filteredItems E (handleValueChange value)
    = if String.eqb value "" then E else List.filter (keeps value) E.
Proof.
  unfold handleValueChange, radioValue, filteredItems, truthy.
  split; [|split; [|split]].
  - destruct (String.eqb_spec value ""); [now subst | reflexivity].
  - destruct (String.eqb_spec value ""); congruence.
  - destruct selectedTag as [t|]; [|reflexivity].
    intros H. destruct (String.eqb_spec t ""); [congruence | reflexivity].
  - destruct (String.eqb value "") eqn:Ev; [reflexivity|].
    now rewrite Ev.
Qed.

Lemma selection_round_trip_witness :
  handleValueChange (radioValue (Some "multi-modal")) = Some "multi-modal".
Proof.
  exact (proj1 (proj2 (proj2
    (selection_round_trip "" (Some "multi-modal") [])))
    ltac:(discriminate)).
Defined.

(** ** Labels *)

Import TagLabel.

Ltac each_char c := destruct c as [[] [] [] [] [] [] [] []].

Lemma is_word_upper (c : ascii) : is_word (toUpperCase c) = is_word c.
Proof. each_char c; reflexivity. Qed.

Lemma upper_upper (c : ascii) : toUpperCase (toUpperCase c) = toUpperCase c.
Proof. each_char c; reflexivity. Qed.

Lemma upper_hyphen (c : ascii) :
  Ascii.eqb "-" (toUpperCase c) = Ascii.eqb "-" c.
Proof. each_char c; reflexivity. Qed.

Lemma includes_hyphen (c : ascii) (s : string) :
  includes (String c s) "-" = if Ascii.eqb "-" c then true else includes s "-".
Proof.
  unfold includes. cbn [search]. rewrite strip_prefix_cons.
  destruct (Ascii.eqb "-" c); [reflexivity|].
  destruct (search (strip_prefix "-") s) as [[? ?]|]; reflexivity.
Qed.

Lemma spaced_no_hyphen (s : string) : includes (spaced s) "-" = false.
Proof.
  induction s as [|c s IH]; [reflexivity|].
  cbn [spaced]. rewrite includes_hyphen, IH.
  destruct (Ascii.eqb_spec c "-") as [->|Hc]; [reflexivity|].
  destruct (Ascii.eqb_spec "-" c); congruence.
Qed.

Lemma spaced_fixed (s : string) : includes s "-" = false -> spaced s = s.
Proof.
  induction s as [|c s IH]; [reflexivity|].
  rewrite includes_hyphen. cbn [spaced].
  destruct (Ascii.eqb_spec "-" c) as [<-|Hc]; [discriminate|].
  intros H. rewrite (IH H).
  destruct (Ascii.eqb_spec c "-"); congruence.
Qed.

Lemma capitalized_no_hyphen (b : bool) (s : string) :
  includes s "-" = false -> includes (capitalized b s) "-" = false.
Proof.
  revert b; induction s as [|c s IH]; intros b; [reflexivity|].
  rewrite includes_hyphen. cbn [capitalized]. rewrite includes_hyphen.
  destruct (Ascii.eqb "-" c) eqn:Ec; [discriminate|].
  intros H. rewrite (IH _ H).
  destruct (is_word c && negb b); [now rewrite upper_hyphen, Ec|].
  now rewrite Ec.
Qed.

Lemma capitalized_again (b : bool) (s : string) :
  capitalized b (capitalized b s) = capitalized b s.
Proof.
  revert b; induction s as [|c s IH]; intros b; [reflexivity|].
  cbn [capitalized].
  destruct (is_word c && negb b) eqn:E.
  - rewrite is_word_upper, E, upper_upper, IH. reflexivity.
  - rewrite E, IH. reflexivity.
Qed.

Lemma capitalized_length (b : bool) (s : string) :
  String.length (capitalized b s) = String.length s.
Proof.
  revert b; induction s as [|c s IH]; intros b; simpl; [reflexivity|].
  now rewrite IH.
Qed.

Lemma spaced_length (s : string) : String.length (spaced s) = String.length s.
Proof. induction s as [|c s IH]; simpl; [reflexivity | now rewrite IH]. Qed.

(** X7.  The label of a tag card has as many characters as the tag and
    no hyphen, and labelling a label changes nothing; the six tags of the
    list read "Vector Index", "Knowledge Graph" and so on. *)
Theorem tag_labels (tag : string) :
  String.length (tagLabel tag) = String.length tag /\
  includes (tagLabel tag) "-" = false /\
  tagLabel (tagLabel tag) = tagLabel tag /\
  map tagLabel TAGS =
    [ "Vector Index"; "Knowledge Graph"; "Multi Modal";
      "Structured Data Extraction"; "Custom Building Blocks";
      "Data Mapping" ].
Proof.
  unfold tagLabel. split; [|split; [|split; [|reflexivity]]].
  - now rewrite capitalized_length, spaced_length.
  - apply capitalized_no_hyphen, spaced_no_hyphen.
  - rewrite (spaced_fixed (capitalized false (spaced tag))).
    + apply capitalized_again.
    + apply capitalized_no_hyphen, spaced_no_hyphen.
Qed.

(** ** The cards of the filter *)

(** X8.  After a change on one of the seven cards of the filter, that
    card and no other is shown as checked, the state of the root itself
    is untouched (the root is controlled), and the list shows all
    entries for "All Categories" and the entries carrying the tag for a
    tag card.  Before any change, "All Categories" is the checked card. *)
Theorem chosen_card_is_checked (card : RadioCards.ItemProps)
    (selectedTag : option string) (uncontrolledValue : RadioCards.state)
    (E : list item) :
  In card TagCards.cards ->
  (TagCards.choose card selectedTag uncontrolledValue).2 = uncontrolledValue /\
  TagCards.checked (TagCards.choose card selectedTag uncontrolledValue).1
                   (TagCards.choose card selectedTag uncontrolledValue).2
    = [card] /\
  filteredItems E (TagCards.choose card selectedTag uncontrolledValue).1
    = (if String.eqb (RadioCards.itemValue card) "" then E
       else List.filter (keeps (RadioCards.itemValue card)) E) /\
  TagCards.checked None uncontrolledValue = [RadioCards.Item "" false].
Proof.
  intros H. unfold TagCards.cards, TAGS in H. cbn [map In] in H.
  repeat (destruct H as [<-|H]); [..|destruct H]; repeat split.
Qed.

Lemma chosen_card_is_checked_witness :
  TagCards.checked
    (TagCards.choose (RadioCards.Item "knowledge-graph" false) None None).1
    (TagCards.choose (RadioCards.Item "knowledge-graph" false) None None).2
  = [RadioCards.Item "knowledge-graph" false].
Proof.
  exact (proj1 (proj2
    (chosen_card_is_checked (RadioCards.Item "knowledge-graph" false)
       None None [] (or_intror (or_intror (or_introl eq_refl)))))).
Defined.

Lemma changes_state (props : RadioCards.RootProps)
    (items : list RadioCards.ItemProps) (u : RadioCards.state) :
  (RadioCards.changes props items u).1 =
  match RadioCards.value props with
  | Some _ => u
  | None => match last (enabled_values items) with
            | Some v => Some v
            | None => u
            end
  end.
Proof.
  revert u; induction items as [|item items IH]; intros u.
  - simpl. now destruct (RadioCards.value props).
  - cbn [RadioCards.changes]. unfold RadioCards.onChange, enabled_values.
    cbn [List.filter].
    destruct (negb (RadioCards.disabled item)).
    + unfold RadioCards.handleValueChange.
      specialize (IH (match RadioCards.value props with
                      | Some _ => u
                      | None => Some (RadioCards.itemValue item)
                      end)).
      destruct (RadioCards.changes props items _) as [u2 c2].
      cbn [fst] in *. rewrite IH. cbn [map]. rewrite last_cons.
      fold (enabled_values items).
      destruct (RadioCards.value props); [reflexivity|].
      now destruct (last (enabled_values items)).
    + specialize (IH u).
      destruct (RadioCards.changes props items u) as [u2 c2].
      cbn [fst] in *. exact IH.
Qed.

Lemma changes_calls (props : RadioCards.RootProps)
    (items : list RadioCards.ItemProps) (u : RadioCards.state) :
  (RadioCards.changes props items u).2 =
  if RadioCards.onValueChange props then enabled_values items else [].
Proof.
  revert u; induction items as [|item items IH]; intros u.
  - simpl. now destruct (RadioCards.onValueChange props).
  - cbn [RadioCards.changes]. unfold RadioCards.onChange, enabled_values.
    cbn [List.filter].
    destruct (negb (RadioCards.disabled item)).
    + unfold RadioCards.handleValueChange.
      specialize (IH (match RadioCards.value props with
                      | Some _ => u
                      | None => Some (RadioCards.itemValue item)
                      end)).
      destruct (RadioCards.changes props items _) as [u2 c2].
      cbn [snd] in *. rewrite IH. fold (enabled_values items).
      now destruct (RadioCards.onValueChange props).
    + specialize (IH u).
      destruct (RadioCards.changes props items u) as [u2 c2].
      cbn [snd] in *. rewrite IH. reflexivity.
Qed.

(** X9.  After any series of changes on the items of a root, the
    callback has been called once for each change on an item that is not
    disabled, in order, with the value of that item; a root that is given
    a value keeps showing it, and a root that is not shows the value of
    the last such item, or what it showed before when there is none.  A
    change on a disabled item does nothing. *)
Theorem radio_follows_enabled_changes (props : RadioCards.RootProps)
    (items : list RadioCards.ItemProps) (u : RadioCards.state) :
  (RadioCards.changes props items u).2
    = (if RadioCards.onValueChange props then enabled_values items else []) /\
  RadioCards.contextValue props (RadioCards.changes props items u).1
    = match RadioCards.value props with
      | Some controlledValue => Some controlledValue
      | None => match last (enabled_values items) with
                | Some v => Some v
                | None => u
                end
      end /\
  (forall item, RadioCards.disabled item = true ->
                RadioCards.onChange props item u = (u, [])).
Proof.
  split; [apply changes_calls|]. split.
  - unfold RadioCards.contextValue. rewrite changes_state.
    now destruct (RadioCards.value props).
  - intros item H. unfold RadioCards.onChange. now rewrite H.
Qed.

Lemma radio_follows_enabled_changes_witness :
  RadioCards.onChange (RadioCards.Root None None true)
    (RadioCards.Item "a" true) (Some "b") = (Some "b", []).
Proof.
  exact (proj2 (proj2 (radio_follows_enabled_changes
                         (RadioCards.Root None None true) [] (Some "b")))
               (RadioCards.Item "a" true) eq_refl).
Defined.

(** ** Document cards *)

Import Conversion DocCard.

Lemma length_positive (t : string) :
  t <> "" -> (0 <? String.length t)%nat = true.
Proof. destruct t; [congruence | reflexivity]. Qed.

(** [DocCard] by cases on the item. *)
Lemma docCard_cases (it : sidebarItem) (docDescription : option string) :
  DocCard it docDescription =
  if negb (String.eqb (type it) "link") then Null
  else match image (fields it) with
       | None => Null
       | Some src =>
           if String.eqb src "" then Null
           else
             let view badges :=
               Rendered
                 (Card (href (fields it)) src (label (fields it))
                    (shownContent match description it with
                                  | Some d => Some d
                                  | None => docDescription
                                  end) badges) in
             match tags (fields it) with
             | VStr t => if String.eqb t "" then view [] else TypeError
             | VObj f =>
                 match greater_than_zero
                         (default VUndefined (f !! "length")) with
                 | Some false => view []
                 | _ => TypeError
                 end
             | v => view (elements v)
             end
       end.
Proof.
  unfold DocCard, CardLayout, ImageCard, displayTags.
  cbn [p_tags p_tag p_link p_imageLink p_title p_content].
  destruct (negb (String.eqb (type it) "link")); [reflexivity|].
  destruct (image (fields it)) as [src|]; [|reflexivity].
  destruct (String.eqb src ""); [reflexivity|].
  destruct (tags (fields it)) as [| |b|x|t|l|f]; cbn [truthyValue elements];
    try reflexivity.
  - destruct b; reflexivity.
  - destruct x; reflexivity.
  - destruct (String.eqb_spec t "") as [->|Et]; cbn [negb truthyValue].
    + reflexivity.
    + destruct (String.eqb_spec t ""); [congruence|]. cbn [negb].
      now rewrite (length_positive t Et).
Qed.

(** X10.  [DocCard] returns [null] exactly for an item that is not a
    link or has no non-empty string as its image.  For the other items
    it returns a card, unless a [TypeError] is thrown on the way, which
    happens exactly when [customProps.tags] is a non-empty string, or an
    object whose [length] is greater than 0 or cannot be compared with
    0: both have a length and no [map] to call. *)
Theorem docCard_outcome (it : sidebarItem) (docDescription : option string) :
  (DocCard it docDescription = Null <->
   type it <> "link" \/ image (fields it) = None \/
   image (fields it) = Some "") /\
  (DocCard it docDescription = TypeError <->
   type it = "link" /\
   (exists src, image (fields it) = Some src /\ src <> "") /\
   ((exists t, tags (fields it) = VStr t /\ t <> "") \/
    (exists f, tags (fields it) = VObj f /\
       greater_than_zero (default VUndefined (f !! "length"))
       <> Some false))).
Proof.
  rewrite docCard_cases.
  destruct (String.eqb_spec (type it) "link") as [Et|Et]; cbn [negb].
  2:{ split; split; auto; try discriminate. intros [? _]. contradiction. }
  destruct (image (fields it)) as [src|] eqn:Ei.
  2:{ split; split; auto; try discriminate.
      intros (_ & (? & [=] & _) & _). }
  destruct (String.eqb_spec src "") as [->|Es].
  { split; split; auto; try discriminate.
    intros (_ & (? & [= <-] & ?) & _). congruence. }
  assert (N : ~ (type it <> "link" \/ Some src = None \/ Some src = Some ""))
    by (intros [?|[?|[= ?]]]; congruence).
  destruct (tags (fields it)) as [| |b|x|t|l|f] eqn:Eg; cbn [elements].
  1-4,6: split; split; try discriminate; try tauto;
    intros (_ & _ & [(? & [=] & _)|(? & [=] & _)]).
  - destruct (String.eqb_spec t "") as [->|Ett].
    + split; split; try discriminate; try tauto.
      intros (_ & _ & [(? & [= <-] & ?)|(? & [=] & _)]). congruence.
    + split; split; try discriminate; try tauto.
      intros _. repeat split; eauto.
  - destruct (greater_than_zero _) as [[|]|] eqn:Eo.
    + split; split; try discriminate; try tauto.
      intros _. repeat split; eauto. right. exists f. split; [reflexivity|].
      rewrite Eo. discriminate.
    + split; split; try discriminate; try tauto.
      intros (_ & _ & [(? & [=] & _)|(? & [= <-] & Hf)]).
      now rewrite Eo in Hf.
    + split; split; try discriminate; try tauto.
      intros _. repeat split; eauto. right. exists f. split; [reflexivity|].
      rewrite Eo. discriminate.
Qed.

Lemma docCard_outcome_witness :
  DocCard (SidebarItem "link" sized None) (Some "text") = TypeError.
Proof.
  apply (proj2 (docCard_outcome (SidebarItem "link" sized None)
                  (Some "text"))).
  split; [reflexivity|]. split; [exists "img/e.png"; split; [reflexivity | discriminate]|].
  right. exists {["length" := VNum (JsNumber.of_Z 1)]}.
  split; [reflexivity | discriminate].
Defined.

(** X11.  A rendered card links to the [href] of the item, with its label
    as title and its image.  Its badges are the elements of the [tags]
    array, so that it carries the badge [t] exactly when the filter keeps
    the item for the tag [t].  Its paragraph is the description of the
    item when it has one, and the description of the document only when
    it has none: an empty description of the item leaves the card without
    paragraph whatever the document says. *)
Theorem rendered_card_matches_item (it : sidebarItem)
    (docDescription : option string) (c : card) (t : string) :
  DocCard it docDescription = Rendered c ->
  link c = href (fields it) /\
  title c = label (fields it) /\
  image (fields it) = Some (imageLink c) /\
  badges c = elements (tags (fields it)) /\
  (In (VStr t) (badges c) <-> keeps t (fields it) = true) /\
  paragraph c =
    match description it with
    | Some d => if String.eqb d "" then None else Some d
    | None => shownContent docDescription
    end.
Proof.
  rewrite docCard_cases.
  destruct (negb (String.eqb (type it) "link")); [discriminate|].
  destruct (image (fields it)) as [src|]; [|discriminate].
  destruct (String.eqb src ""); [discriminate|].
  assert (K : forall v, tags (fields it) = v ->
              (In (VStr t) (elements v) <-> keeps t (fields it) = true)).
  { intros v Ev. unfold keeps. rewrite Ev.
    destruct v; cbn [isArray elements andb];
      try (split; [intros [] | discriminate]).
    symmetry. apply DocCardListClaims.arrayIncludes_In. }
  assert (P : shownContent match description it with
                           | Some d => Some d
                           | None => docDescription
                           end
              = match description it with
                | Some d => if String.eqb d "" then None else Some d
                | None => shownContent docDescription
                end)
    by (destruct (description it); reflexivity).
  destruct (tags (fields it)) as [| |b|z|s|l|f] eqn:Eg; cbn [elements].
  5:{ destruct (String.eqb_spec s "") as [->|]; [|discriminate].
      intros [= <-]. cbn [link title imageLink badges paragraph].
      repeat split; auto; try apply (K (VStr "") eq_refl). }
  6:{ destruct (greater_than_zero _) as [[|]|]; try discriminate.
      intros [= <-]. cbn [link title imageLink badges paragraph].
      repeat split; auto; try apply (K (VObj f) eq_refl). }
  all: intros [= <-]; cbn [link title imageLink badges paragraph];
    repeat split; auto;
    first [apply (K VUndefined eq_refl) | apply (K VNull eq_refl)
          | apply (K (VBool b) eq_refl) | apply (K (VNum z) eq_refl)
          | apply (K (VArr l) eq_refl)].
Qed.

Lemma rendered_card_matches_item_witness :
  badges (Card "/e" "img/e.png" "entry" None [VStr "x"])
  = elements (tags (Item "/e" "entry"
                      (Some (<["tags" := VArr [VStr "x"]]>
                               {["image" := VStr "img/e.png"]})))).
Proof.
  apply (rendered_card_matches_item
           (SidebarItem "link"
              (Item "/e" "entry"
                 (Some (<["tags" := VArr [VStr "x"]]>
                          {["image" := VStr "img/e.png"]})))
              None)
           None (Card "/e" "img/e.png" "entry" None [VStr "x"]) "x").
  vm_compute. reflexivity.
Defined.

End CardProperties.

(** * Further properties of the navigation bar and the star counter *)

Module NavbarProperties.
Import Navbar.

Lemma at_side_position (side : string) (it : navItem) :
  at_side side it = true <-> position it = Some side.
Proof.
  unfold at_side. destruct (position it) as [p|].
  - rewrite String.eqb_eq. split; congruence.
  - split; discriminate.
Qed.

Lemma side_sublist (f : navItem -> bool) (items : list navItem) :
  sublist (List.filter f items) items.
Proof.
  induction items as [|it items IH]; simpl; [constructor|].
  destruct (f it); now constructor.
Qed.

(** X12.  The bar shows on the left the items whose position is ["left"]
    and on the right those whose position is ["right"], each side in the
    order of the configuration and no item on both; an item with another
    position, or with none, is on neither side, so that the two sides
    together hold all items exactly when every item has one of the two
    positions. *)
Theorem navbar_sides (items : list navItem) :
  sublist (leftItems items) items /\
  sublist (rightItems items) items /\
  (forall it, In it (leftItems items) <->
              In it items /\ position it = Some "left") /\
  (forall it, In it (rightItems items) <->
              In it items /\ position it = Some "right") /\
  (forall it, In it (leftItems items) -> ~ In it (rightItems items)) /\
  length (leftItems items) + length (rightItems items) <= length items /\
  (length (leftItems items) + length (rightItems items) = length items <->
   forall it, In it items ->
              position it = Some "left" \/ position it = Some "right").
Proof.
  unfold leftItems, rightItems.
  assert (HL : forall it, In it (List.filter (at_side "left") items) <->
                          In it items /\ position it = Some "left")
    by (intros it; now rewrite filter_In, at_side_position).
  assert (HR : forall it, In it (List.filter (at_side "right") items) <->
                          In it items /\ position it = Some "right")
    by (intros it; now rewrite filter_In, at_side_position).
  split; [apply side_sublist|]. split; [apply side_sublist|].
  split; [exact HL|]. split; [exact HR|]. split.
  { intros it [_ Hl]%HL [_ Hr]%HR. congruence. }
  clear HL HR. induction items as [|it items [IH1 IH2]]; simpl.
  { split; [lia|]. split; [intros _ ? [] | reflexivity]. }
  pose proof (at_side_position "left" it) as PL.
  pose proof (at_side_position "right" it) as PR.
  pose proof (filter_length_le (at_side "left") items) as LL.
  pose proof (filter_length_le (at_side "right") items) as LR.
  destruct (at_side "left" it) eqn:El; destruct (at_side "right" it) eqn:Er;
    simpl.
  - destruct PL as [PL _], PR as [PR _].
    rewrite (PL eq_refl) in PR. specialize (PR eq_refl). discriminate.
  - split; [lia|]. split; intros H.
    + assert (E : length (List.filter (at_side "left") items)
                  + length (List.filter (at_side "right") items)
                  = length items) by lia.
      intros it' [<-|Hin]; [left; now apply PL | now apply IH2].
    + assert (E : length (List.filter (at_side "left") items)
                  + length (List.filter (at_side "right") items)
                  = length items)
        by (apply IH2; intros it' Hin; apply H; now right).
      lia.
  - split; [lia|]. split; intros H.
    + assert (E : length (List.filter (at_side "left") items)
                  + length (List.filter (at_side "right") items)
                  = length items) by lia.
      intros it' [<-|Hin]; [right; now apply PR | now apply IH2].
    + assert (E : length (List.filter (at_side "left") items)
                  + length (List.filter (at_side "right") items)
                  = length items)
        by (apply IH2; intros it' Hin; apply H; now right).
      lia.
  - split; [lia|]. split; [lia|]. intros H. exfalso.
    destruct (H it (or_introl eq_refl)) as [Hp|Hp].
    + apply PL in Hp. discriminate.
    + apply PR in Hp. discriminate.
Qed.

Lemma navbar_sides_witness :
  ~ In (NavItem None "Blog")
       (leftItems [NavItem (Some "left") "Docs"; NavItem None "Blog"]).
Proof.
  intros H.
  apply (proj1 (proj2 (proj2 (navbar_sides
           [NavItem (Some "left") "Docs"; NavItem None "Blog"])))) in H.
  destruct H as [_ H]. discriminate H.
Defined.

End NavbarProperties.

Module StarProperties.
Import JsNumber GitHubStar NumberVocabulary StarFacts.
Local Open Scope Z_scope.

#[local] Arguments String.append !s1 s2 /.

Lemma to_int_not_nil (z : Z) :
  Z.to_int z <> Decimal.Pos Decimal.Nil /\
  Z.to_int z <> Decimal.Neg Decimal.Nil.
Proof.
  destruct z as [|p|p]; simpl; split; try discriminate.
  - intros [= H]. revert H. apply DecimalPos.Unsigned.to_uint_nonnil.
  - intros [= H]. revert H. apply DecimalPos.Unsigned.to_uint_nonnil.
Qed.

Lemma decimal_parses (z : Z) :
  NilZero.int_of_string (decimal z) = Some (Z.to_int z).
Proof.
  unfold decimal. destruct (to_int_not_nil z). now apply NilZero.isi.
Qed.

Lemma decimal_inj (z1 z2 : Z) : decimal z1 = decimal z2 -> z1 = z2.
Proof.
  intros H. apply DecimalZ.to_int_inj.
  pose proof (decimal_parses z1) as H1. rewrite H, decimal_parses in H1.
  congruence.
Qed.

Lemma uint_of_string_k (s : string) :
  NilEmpty.uint_of_string (s +:+ "k") = None.
Proof.
  induction s as [|a s IH]; [reflexivity|].
  change (String a s +:+ "k") with (String a (s +:+ "k")).
  cbn [NilEmpty.uint_of_string]. rewrite IH. reflexivity.
Qed.

Lemma int_of_string_k (s : string) :
  NilZero.int_of_string (s +:+ "k") = None.
Proof.
  destruct s as [|a s]; [reflexivity|].
  change (String a s +:+ "k") with (String a (s +:+ "k")).
  unfold NilZero.int_of_string, NilZero.uint_of_string.
  pose proof (uint_of_string_k s) as Hs.
  pose proof (uint_of_string_k (String a s)) as Has.
  change (String a s +:+ "k") with (String a (s +:+ "k")) in Has.
  destruct (Ascii.eqb a "-").
  - destruct (s +:+ "k"); [reflexivity | now rewrite Hs].
  - now rewrite Has.
Qed.

Lemma thousands_end_in_k (L : number -> string) (z : Z) :
  1000 <= z < 2 ^ 53 -> exists s, formatStars L (Num (of_Z z)) = s +:+ "k".
Proof.
  intros H. apply formatStars_k; [apply of_Z_not_NaN|].
  rewrite lt_of_Z_nonneg by lia.
  destruct (Z.ltb_spec z 1000); [lia | reflexivity].
Qed.

Lemma small_differs_from_large (L : number -> string) (z : Z) (x : number) :
  0 <= z < 1000 -> isNaN x = false -> lt x (of_Z 1000) = false ->
  formatStars en_US (Num (of_Z z)) <> formatStars L (Num x).
Proof.
  intros H1 H2 H3 E.
  destruct (formatStars_k L x H2 H3) as [s Hs].
  rewrite (formatStars_small z H1), Hs in E.
  pose proof (decimal_parses z) as P. rewrite E, int_of_string_k in P.
  discriminate.
Qed.

(** When the counter reads ["0"]. *)
Lemma reads_zero (L : number -> string) (count : stars_value) :
  formatStars L count = "0" <->
  count = Null \/ count = Undefined \/
  exists x, count = Num x /\
    (isNaN x = true \/ (lt x (of_Z 1000) = true /\ L x = "0")).
Proof.
  split.
  - destruct count as [| |x]; auto. intros E. do 2 right. exists x.
    split; [reflexivity|].
    destruct (isNaN x) eqn:En; [now left | right].
    destruct (lt x (of_Z 1000)) eqn:El.
    + split; [reflexivity|]. now rewrite formatStars_below in E.
    + destruct (formatStars_k L x En El) as [s Hs]. rewrite Hs in E.
      destruct s as [|a [|b s]]; discriminate.
  - intros [->|[->|(x & -> & [En|[El E]])]]; try reflexivity.
    + unfold formatStars. now rewrite En.
    + destruct (isNaN x) eqn:En.
      * unfold formatStars. now rewrite En.
      * now rewrite formatStars_below.
Qed.

(** X13.  In the [en-US] locale integer counts below 1000 are shown
    without loss: two different counts from 0 to 999 never give the
    same text, and no number from 1000 on, in whatever locale, gives
    the text of one of them.  In every locale the counter reads ["0"]
    exactly for a count that is [null], missing or [NaN], or a number
    below 1000 that the locale writes ["0"]; among the integers below
    [2^53], in [en-US] that is 0 alone. *)
Theorem small_counts_shown_exactly (toLocaleString : number -> string) :
  (forall z1 z2, 0 <= z1 < 1000 -> 0 <= z2 < 1000 ->
     formatStars en_US (Num (of_Z z1)) = formatStars en_US (Num (of_Z z2)) ->
     z1 = z2) /\
  (forall z x, 0 <= z < 1000 ->
     isNaN x = false -> lt x (of_Z 1000) = false ->
     formatStars en_US (Num (of_Z z))
     <> formatStars toLocaleString (Num x)) /\
  (forall count,
     formatStars toLocaleString count = "0" <->
     count = Null \/ count = Undefined \/
     exists x, count = Num x /\
       (isNaN x = true \/
        (lt x (of_Z 1000) = true /\ toLocaleString x = "0"))) /\
  (forall z, 0 <= z < 2 ^ 53 ->
     (formatStars en_US (Num (of_Z z)) = "0" <-> z = 0)).
Proof.
  split; [|split; [|split]].
  - intros z1 z2 H1 H2. rewrite !formatStars_small by assumption.
    apply decimal_inj.
  - exact (small_differs_from_large toLocaleString).
  - exact (reads_zero toLocaleString).
  - intros z H. split; [|intros ->; reflexivity].
    intros E. destruct (Z.ltb_spec z 1000) as [Hs|Hs].
    + rewrite formatStars_small in E by lia. now apply decimal_inj.
    + destruct (thousands_end_in_k en_US z ltac:(lia)) as [s Hk].
      rewrite Hk in E. destruct s as [|a [|b s]]; discriminate.
Qed.

Lemma small_counts_shown_exactly_witness :
  formatStars en_US (Num (of_Z 999)) <> formatStars en_US (Num (of_Z 1000)).
Proof.
  exact (proj1 (proj2 (small_counts_shown_exactly en_US)) 999 (of_Z 1000)
           ltac:(lia) eq_refl eq_refl).
Defined.

(** X14.  Whether the awaited calls reject, or resolve with the body
    [null] or with a body whose [stargazers_count] is a number, [null]
    or missing, [fetchStars] completes normally and ends the loading.
    With a count read it stores the count as it is and logs nothing;
    on a rejection, and on the body [null], of which the count cannot
    be read, it keeps the stored count and logs the error once.  After
    the fetch made when the component mounts, the counter reads ["0"]
    exactly when no count was read, or the count is [null], missing or
    [NaN], or a number below 1000 that the locale writes ["0"]. *)
Theorem fetch_always_settles (toLocaleString : number -> string)
    (o : outcome) (st : state) (log : console) :
  (fetchStars o (st, log)).1 = Normal /\
  loading (fetchStars o (st, log)).2.1 = false /\
  match o with
  | Data (Json count) =>
      stars (fetchStars o (st, log)).2.1 = count /\
      (fetchStars o (st, log)).2.2 = log
  | Data JsonNull =>
      stars (fetchStars o (st, log)).2.1 = stars st /\
      (fetchStars o (st, log)).2.2
        = log ++ [("Error fetching GitHub stars:", null_read)]
  | FetchRejects error | JsonRejects error =>
      stars (fetchStars o (st, log)).2.1 = stars st /\
      (fetchStars o (st, log)).2.2
        = log ++ [("Error fetching GitHub stars:", error)]
  end /\
  (shown toLocaleString (fetchStars o (initial, [])).2.1 = Some "0" <->
   match o with
   | Data (Json count) =>
       count = Null \/ count = Undefined \/
       exists x, count = Num x /\
         (isNaN x = true \/
          (lt x (of_Z 1000) = true /\ toLocaleString x = "0"))
   | _ => True
   end).
Proof.
  split; [now destruct o as [| |[|]]|]. split; [now destruct o as [| |[|]]|].
  split; [now destruct o as [| |[|]]|].
  destruct o as [e|e|[|count]]; try (split; [trivial | reflexivity]).
  change (shown toLocaleString
            (fetchStars (Data (Json count)) (initial, [])).2.1)
    with (Some (formatStars toLocaleString count)).
  rewrite <- (reads_zero toLocaleString count).
  split; congruence.
Qed.

Lemma fetch_always_settles_witness :
  shown en_US (fetchStars (Data (Json Undefined)) (initial, [])).2.1
  = Some "0".
Proof.
  apply (proj2 (proj2 (proj2
    (fetch_always_settles en_US (Data (Json Undefined)) initial [])))).
  right. left. reflexivity.
Defined.

End StarProperties.
